(** * gophernotes: the REPL session engine of internal/repl/repl.go

    A shallow embedding of [Session] and of the functions that thread a
    user fragment into the body of [main]: [evalExpr], [evalStmt],
    [separateEvalStmt], [cleanEvalStmt], [Run], [importFile] and [Eval].

    The Go standard library, the external processes ([go run],
    [goimports]) and the files of the package that are not part of
    repl.go are parameters of the development: they are collected in the
    record [Env].  Every call that leaves the process is recorded in a
    history, and every answer of the operating system may depend on that
    history. *)

From Stdlib Require Import String Ascii List ZArith Lia Bool Arith.
Import ListNotations.
Open Scope string_scope.
Open Scope list_scope.

Set Warnings "-register-all".

(* ================================================================== *)
(** ** Byte strings and the functions of package [strings] that repl.go
       calls.  A Go string is a sequence of bytes; so is a [string]. *)

Module Strings.

Definition newline : string := String "010" "".
Definition dquote : string := String "034" "".

Definition len (s : string) : Z := Z.of_nat (String.length s).

(** [s[i:]] for [i <= len s]. *)
Definition from (i : nat) (s : string) : string :=
  substring i (String.length s - i) s.

(** [len(s) >= len(prefix) && s[:len(prefix)] == prefix] *)
Definition HasPrefix (s p : string) : bool :=
  (String.length p <=? String.length s)%nat
  && String.eqb (substring 0 (String.length p) s) p.

(** [len(s) >= len(suffix) && s[len(s)-len(suffix):] == suffix] *)
Definition HasSuffix (s suf : string) : bool :=
  (String.length suf <=? String.length s)%nat
  && String.eqb (from (String.length s - String.length suf) s) suf.

Definition TrimPrefix (s p : string) : string :=
  if HasPrefix s p then from (String.length p) s else s.

(** The greatest [j <= i] at which [sep] occurs in [s], or [-1]. *)
Fixpoint lastIndexFrom (s sep : string) (i : nat) : Z :=
  if String.eqb (substring i (String.length sep) s) sep
  then Z.of_nat i
  else match i with
       | O => (-1)%Z
       | S j => lastIndexFrom s sep j
       end.

(** [strings.LastIndex]: index of the last instance of [sep] in [s], or
    [-1]; [len s] for the empty separator. *)
Definition LastIndex (s sep : string) : Z :=
  if (String.length sep <=? String.length s)%nat
  then lastIndexFrom s sep (String.length s - String.length sep)
  else (-1)%Z.

Fixpoint Contains (s sub : string) : bool :=
  HasPrefix s sub
  || match s with
     | EmptyString => false
     | String _ s' => Contains s' sub
     end.

(** [strings.TrimSpace] removes the leading and the trailing runes for
    which [unicode.IsSpace] holds.  On the bytes of the string: the six
    ASCII spaces, and the UTF-8 encodings of the other white-space
    runes.  Any other byte sequence, an ill-formed or truncated one
    included, decodes to a rune that is not a space and stops the
    trimming. *)
Definition asciiSpace (c : ascii) : bool :=
  let n := nat_of_ascii c in
  ((9 <=? n) && (n <=? 13))%nat || (n =? 32)%nat.

(** U+0085 and U+00A0. *)
Definition space2 (a b : ascii) : bool :=
  (nat_of_ascii a =? 194)%nat
  && ((nat_of_ascii b =? 133) || (nat_of_ascii b =? 160))%nat.

(** U+1680; U+2000 to U+200A, U+2028, U+2029, U+202F; U+205F; U+3000. *)
Definition space3 (a b c : ascii) : bool :=
  let x := nat_of_ascii a in
  let y := nat_of_ascii b in
  let z := nat_of_ascii c in
  ((x =? 225) && (y =? 154) && (z =? 128))%nat
  || ((x =? 226) && (y =? 128)
      && (((128 <=? z) && (z <=? 138)) || (z =? 168) || (z =? 169) || (z =? 175)))%nat
  || ((x =? 226) && (y =? 129) && (z =? 159))%nat
  || ((x =? 227) && (y =? 128) && (z =? 128))%nat.

Fixpoint trimLeft (l : list ascii) : list ascii :=
  match l with
  | [] => []
  | a :: l1 =>
      if asciiSpace a then trimLeft l1
      else match l1 with
           | [] => l
           | b :: l2 =>
               if space2 a b then trimLeft l2
               else match l2 with
                    | [] => l
                    | c :: l3 => if space3 a b c then trimLeft l3 else l
                    end
           end
  end.

(** The same from the end, on the reversed bytes: the last rune ends at
    the end of the string, so it is a space exactly when the string ends
    with one of the encodings. *)
Fixpoint trimLeftReversed (l : list ascii) : list ascii :=
  match l with
  | [] => []
  | a :: l1 =>
      if asciiSpace a then trimLeftReversed l1
      else match l1 with
           | [] => l
           | b :: l2 =>
               if space2 b a then trimLeftReversed l2
               else match l2 with
                    | [] => l
                    | c :: l3 => if space3 c b a then trimLeftReversed l3 else l
                    end
           end
  end.

Definition trimRight (l : list ascii) : list ascii :=
  rev (trimLeftReversed (rev l)).

Definition TrimSpace (s : string) : string :=
  string_of_list_ascii (trimRight (trimLeft (list_ascii_of_string s))).

(** [strings.Split(s, sep)] for a one-byte separator, the only use in
    repl.go ([sep] is the line feed).  The result is never empty. *)
Fixpoint Split (s : string) (sep : ascii) : list string :=
  match s with
  | EmptyString => [EmptyString]
  | String c s' =>
      if Ascii.eqb c sep then EmptyString :: Split s' sep
      else match Split s' sep with
           | [] => [String c EmptyString]
           | l :: ls => String c l :: ls
           end
  end.

Definition Join (l : list string) (sep : string) : string :=
  String.concat sep l.

(** The last byte of a string, when it has one. *)
Definition trailing (s : string) : option ascii :=
  match String.length s with
  | O => None
  | S n => String.get n s
  end.

End Strings.

(* ================================================================== *)
(** ** Syntax trees, as far as repl.go looks into them.

    The trees come from [go/parser]; repl.go builds call expressions and
    expression statements itself and inspects assignments and
    identifiers.  Everything else is kept as the text it was read from.
    Positions are not part of the model. *)

Inductive Expr : Type :=
| Ident (Name : string)
| BasicLit (Value : string)
| CallExpr (Fun : Expr) (Args : list Expr)
| OtherExpr (text : string).

Inductive Stmt : Type :=
| ExprStmt (X : Expr)
| AssignStmt (Lhs : list Expr) (Tok : string) (Rhs : list Expr)
| OtherStmt (text : string)
| NilStmt.                      (* the nil [ast.Stmt], the zero value of a slice cell *)

Inductive Decl : Type :=
| FuncDecl (Name : string) (text : string)
| GenDecl (text : string).

(** An [*ast.File] read from an external source: its package name and its
    top-level declarations. *)
Record ExtFile : Type := mkExtFile {
  PkgName : string;
  Decls : list Decl
}.

Definition printerName : string := "__gophernotes".

(** ** Errors.  The values of Go's [error] interface that repl.go
    creates or tells apart. *)
Inductive error : Type :=
| ErrContinue                                   (* Error("<continue input>") *)
| ErrQuit                                       (* Error("<quit session>") *)
| ErrorString (msg : string)                    (* errors.New(msg) *)
| ExitError (status : option Z) (msg : string)  (* *exec.ExitError; the exit
                                                   status when ProcessState.Sys()
                                                   is a syscall.WaitStatus *)
| ScannerErrorList (msg : string)               (* scanner.ErrorList *)
| OtherError (msg : string).                    (* every other error value *)

Definition error_Error (e : error) : string :=
  match e with
  | ErrContinue => "<continue input>"
  | ErrQuit => "<quit session>"
  | ErrorString m | ExitError _ m | ScannerErrorList m | OtherError m => m
  end.

Definition isErrQuit (e : error) : bool :=
  match e with ErrQuit => true | _ => false end.

(** ** Slices of statements.

    [s.mainBody.List] is a Go slice: [elems] are the cells below its
    length, [spare] the cells of the backing array between its length and
    its capacity.  Truncation keeps the dropped cells in the array; a
    later [append] overwrites them, a later reslice brings them back. *)
Record Slice : Type := mkSlice {
  elems : list Stmt;
  spare : list Stmt
}.

Definition slen (sl : Slice) : nat := length (elems sl).
Definition scap (sl : Slice) : nat := length (elems sl) + length (spare sl).

(** [sl[0:n]]; [None] when [n] exceeds the capacity (Go panics). *)
Definition reslice (sl : Slice) (n : nat) : option Slice :=
  if (n <=? slen sl)%nat then
    Some (mkSlice (firstn n (elems sl)) (skipn n (elems sl) ++ spare sl))
  else if (n <=? scap sl)%nat then
    Some (mkSlice (elems sl ++ firstn (n - slen sl) (spare sl))
                  (skipn (n - slen sl) (spare sl)))
  else None.

(** [append(sl, xs...)].  [grow oldcap needed] is the capacity the Go
    runtime picks when the backing array is too small; it is at least
    [needed]. *)
Definition appendSlice (grow : nat -> nat -> nat) (sl : Slice) (xs : list Stmt) : Slice :=
  if (length xs <=? length (spare sl))%nat then
    mkSlice (elems sl ++ xs) (skipn (length xs) (spare sl))
  else
    let needed := (slen sl + length xs)%nat in
    mkSlice (elems sl ++ xs)
            (repeat NilStmt (Nat.max needed (grow (scap sl) needed) - needed)).

(** ** The session. *)
Record Session : Type := mkSession {
  FilePath : string;
  Imports : list string;          (* the import declarations of [File] *)
  ExtraFilePaths : list string;
  ExtraFiles : list ExtFile;
  mainBody : Slice;               (* [s.mainBody.List], the body of [main] in [File] *)
  storedBodyLength : nat
}.

Definition setBody (s : Session) (b : Slice) : Session :=
  mkSession (FilePath s) (Imports s) (ExtraFilePaths s) (ExtraFiles s) b
            (storedBodyLength s).

Definition setStored (s : Session) (n : nat) : Session :=
  mkSession (FilePath s) (Imports s) (ExtraFilePaths s) (ExtraFiles s)
            (mainBody s) n.

Definition addExtra (s : Session) (path : string) (f : ExtFile) : Session :=
  mkSession (FilePath s) (Imports s) (ExtraFilePaths s ++ [path])
            (ExtraFiles s ++ [f]) (mainBody s) (storedBodyLength s).

(** ** What leaves the process. *)
Inductive Event : Type :=
| EvParseExpr (src : string)                       (* parser.ParseExpr *)
| EvParseFile (filename src : string)              (* parser.ParseFile *)
| EvCreate (path : string)                         (* os.Create *)
| EvWrite (path data : string)                     (* Write on an os.File *)
| EvFprint (path : string) (imports : list string) (body : list Stmt)
                                                   (* printer.Fprint of the session file *)
| EvFprintExt (path : string) (f : ExtFile)        (* printer.Fprint of an external file *)
| EvExec (name : string) (args : list string)      (* exec.Command(name, args...) run *)
| EvReadFile (path : string)                       (* ioutil.ReadFile *)
| EvTempFile (dir pattern : string).               (* ioutil.TempFile *)

Definition Hist : Type := list Event.

Record World : Type := mkWorld {
  session : Session;
  history : Hist
}.

(** ** The monad of the model: the session and the history are threaded
    through; a Go panic ends the computation. *)
Inductive Outcome (A : Type) : Type :=
| Done (a : A)
| Panic (why : string).
Arguments Done {A} a.
Arguments Panic {A} why.

Definition M (A : Type) : Type := World -> Outcome (A * World).

Definition ret {A} (a : A) : M A := fun w => Done (a, w).

Definition bind {A B} (m : M A) (k : A -> M B) : M B :=
  fun w => match m w with
           | Done (a, w') => k a w'
           | Panic why => Panic why
           end.

Definition panic {A} (why : string) : M A := fun _ => Panic why.

Definition getSession : M Session := fun w => Done (session w, w).

Definition putSession (s : Session) : M unit :=
  fun w => Done (tt, mkWorld s (history w)).

(** An external call: the answer may depend on everything that happened
    before; the call is then appended to the history. *)
Definition call {A} (e : Event) (answer : Hist -> A) : M A :=
  fun w => Done (answer (history w), mkWorld (session w) (history w ++ [e])).

Declare Scope go_scope.
Delimit Scope go_scope with go.
Notation "x <- m ;; k" := (bind m (fun x => k))
  (at level 61, m at next level, right associativity) : go_scope.
Notation "m ;;; k" := (bind m (fun _ => k))
  (at level 61, right associativity) : go_scope.
Open Scope go_scope.

(** The result of parsing ["package P; func F() { ... }"]: [pf_err] is the
    error of [parser.ParseFile]; [pf_F] is the statement list found on
    the returned tree (a partial tree when [pf_err] is set) by looking up
    [F] in the file scope and taking the body of its declaration, and
    [None] when that chain of selections panics. *)
Record ParsedFile : Type := mkParsedFile {
  pf_F : option (list Stmt);
  pf_err : option error
}.

(** An entry of the table [commands] (declared in another file of the
    package): a name and an action on the session. *)
Record Command : Type := mkCommand {
  name : string;
  action : string -> M (option error)
}.

(** ** The environment: the Go standard library, the operating system,
    the external tools and the parts of the package outside repl.go. *)
Record Env : Type := mkEnv {
  (* go/parser, go/printer, go-quickfix, path/filepath, the runtime *)
  parser_ParseExpr : string -> Expr + error;
  parser_ParseFile : string -> string -> ParsedFile;
  parser_ParseExt : string -> string -> ExtFile + error;
  quickfix_QuickFix : ExtFile -> ExtFile;
  filepath_Dir : string -> string;
  growslice : nat -> nat -> nat;
  (* the operating system *)
  os_Create : Hist -> string -> option error;
  file_Write : Hist -> string -> string -> option error;
  printer_Fprint : Hist -> string -> list string -> list Stmt -> option error;
  printer_FprintExt : Hist -> string -> ExtFile -> option error;
  ioutil_ReadFile : Hist -> string -> string + error;
  ioutil_TempFile : Hist -> string -> string -> string + error;
  (* child processes: [cmd.Output()] with a separate stderr buffer, and
     [cmd.Run()] with stdout and stderr in one buffer *)
  exec_Output : Hist -> string -> list string -> string * string * option error;
  exec_Combined : Hist -> string -> list string -> string * option error;
  (* the package outside repl.go *)
  commands : list Command;
  clearQuickFix : M unit;
  doQuickFix : M unit;
  isPureExpr : Hist -> Session -> Expr -> bool
}.

(* ================================================================== *)
(** ** repl.go *)

Section Repl.

Variable env : Env.

(** [s.appendStatements(stmts...)] *)
Definition appendStatements (stmts : list Stmt) : M unit :=
  s <- getSession ;;
  putSession (setBody s (appendSlice (growslice env) (mainBody s) stmts)).

(** [s.mainBody.List = s.mainBody.List[0:n]] *)
Definition truncateBody (n : nat) : M unit :=
  s <- getSession ;;
  match reslice (mainBody s) n with
  | Some b => putSession (setBody s b)
  | None => panic "slice bounds out of range"
  end.

Definition storeMainBody : M unit :=
  s <- getSession ;;
  putSession (setStored s (slen (mainBody s))).

Definition restoreMainBody : M unit :=
  s <- getSession ;;
  truncateBody (storedBodyLength s).

(** The node [__gophernotes(args...)] as an expression statement. *)
Definition printCall (args : list Expr) : Stmt :=
  ExprStmt (CallExpr (Ident printerName) args).

Definition evalExpr (line : string) : M (Expr + error) :=
  r <- call (EvParseExpr line) (fun _ => parser_ParseExpr env line) ;;
  match r with
  | inr err => ret (inr err)
  | inl expr => appendStatements [printCall [expr]] ;;; ret (inl expr)
  end.

Definition isNamedIdent (expr : Expr) (nm : string) : bool :=
  match expr with
  | Ident n => String.eqb n nm
  | _ => false
  end.

(** [goRun]: the argument list and the call. *)
Definition goRunArgs (files : list string) : list string := "run" :: files.

Definition goRun (files : list string) : M (string * string * option error) :=
  let args := goRunArgs files in
  call (EvExec "go" args) (fun h => exec_Output env h "go" args).

Definition Run : M (string * string * option error) :=
  s <- getSession ;;
  cerr <- call (EvCreate (FilePath s)) (fun h => os_Create env h (FilePath s)) ;;
  match cerr with
  | Some err => ret ("", "", Some err)
  | None =>
      perr <- call (EvFprint (FilePath s) (Imports s) (elems (mainBody s)))
                   (fun h => printer_Fprint env h (FilePath s) (Imports s)
                                            (elems (mainBody s))) ;;
      match perr with
      | Some err => ret ("", "", Some err)
      | None => goRun (ExtraFilePaths s ++ [FilePath s])
      end
  end.

(** The loop of [importFile] that drops the first function declaration
    named [main]; the flag tells whether one was dropped. *)
Fixpoint removeMain (ds : list Decl) : list Decl * bool :=
  match ds with
  | [] => ([], false)
  | FuncDecl n t :: rest =>
      if String.eqb n "main" then (rest, true)
      else let (r, b) := removeMain rest in (FuncDecl n t :: r, b)
  | d :: rest => let (r, b) := removeMain rest in (d :: r, b)
  end.

Definition importFile (src : string) : M (option error) :=
  s <- getSession ;;
  let dir := filepath_Dir env (FilePath s) in
  tmp <- call (EvTempFile dir "gore_extarnal_")
              (fun h => ioutil_TempFile env h dir "gore_extarnal_") ;;
  match tmp with
  | inr err => ret (Some err)
  | inl tmpName =>
      let ext := (tmpName ++ ".go")%string in
      pf <- call (EvParseFile ext src) (fun _ => parser_ParseExt env ext src) ;;
      match pf with
      | inr err => ret (Some err)
      | inl f0 =>
          let (ds, removed) := removeMain (Decls f0) in
          let f1 := mkExtFile "main" ds in
          let f := if removed then quickfix_QuickFix env f1 else f1 in
          cerr <- call (EvCreate ext) (fun h => os_Create env h ext) ;;
          match cerr with
          | Some err => ret (Some err)
          | None =>
              perr <- call (EvFprintExt ext f)
                           (fun h => printer_FprintExt env h ext f) ;;
              match perr with
              | Some err => ret (Some err)
              | None =>
                  s' <- getSession ;;
                  putSession (addExtra s' ext f) ;;; ret None
              end
          end
      end
  end.

Definition stmtSource (input : string) : string :=
  ("package P; func F() { " ++ input ++ " }")%string.

Definition appendForImport : string :=
  ("package main" ++ Strings.newline ++ Strings.newline ++ Strings.newline
   ++ String "009" (String "009" (String "009" "")))%string.

(** The branch of [evalStmt] taken when the synthetic file does not
    parse.  [Some err]: [evalStmt] returns [err]; [None]: control falls
    out of the branch. *)
Definition evalStmtFallback (input : string) : M (option error) :=
  s <- getSession ;;
  let proxy := (filepath_Dir env (FilePath s) ++ "/func_proxy.go")%string in
  let content := (appendForImport ++ input)%string in
  cerr <- call (EvCreate proxy) (fun h => os_Create env h proxy) ;;
  match cerr with
  | Some err => ret (Some err)
  | None =>
      werr <- call (EvWrite proxy content)
                   (fun h => file_Write env h proxy content) ;;
      match werr with
      | Some err => ret (Some err)
      | None =>
          r <- call (EvExec "goimports" ["-w"; proxy])
                    (fun h => exec_Combined env h "goimports" ["-w"; proxy]) ;;
          match snd r with
          | Some _ => ret (Some (ErrorString (fst r)))
          | None =>
              rf <- call (EvReadFile proxy)
                         (fun h => ioutil_ReadFile env h proxy) ;;
              match rf with
              | inr err => ret (Some err)
              | inl functproxy =>
                  ierr <- importFile functproxy ;;
                  match ierr with
                  | Some (ScannerErrorList _) => ret (Some ErrContinue)
                  | _ => ret None
                  end
              end
          end
      end
  end.

(** The left-hand sides that are not the blank identifier. *)
Definition printedLhs (lhs : list Expr) : list Expr :=
  filter (fun v => negb (isNamedIdent v "_")) lhs.

(** What [evalStmt] appends for the statements [stmts] of the parsed file. *)
Definition withLastValues (stmts : list Stmt) (noPrint : bool) : list Stmt :=
  if (0 <? length stmts)%nat then
    let lastStmt := last stmts NilStmt in
    if negb noPrint then
      match lastStmt with
      | AssignStmt lhs _ _ =>
          let vs := printedLhs lhs in
          if (0 <? length vs)%nat then stmts ++ [printCall vs] else stmts
      | _ => stmts
      end
    else stmts
  else stmts.

Definition evalStmt (input : string) (noPrint : bool) : M (option error) :=
  let src := stmtSource input in
  pf <- call (EvParseFile "stmt.go" src)
             (fun _ => parser_ParseFile env "stmt.go" src) ;;
  r <- match pf_err pf with
       | Some _ => evalStmtFallback input
       | None => ret None
       end ;;
  match r with
  | Some err => ret (Some err)
  | None =>
      match pf_F pf with
      | None => panic "invalid memory address or nil pointer dereference"
      | Some stmts =>
          appendStatements (withLastValues stmts noPrint) ;;; ret None
      end
  end.

(** *** separateEvalStmt *)

(** [strings.LastIndex(line, sep) == len(line)-1] *)
Definition endsWith (line sep : string) : bool :=
  (Strings.LastIndex line sep =? Strings.len line - 1)%Z.

(** Lines 451-455: the closing-brace adjustment of the depth counter. *)
Definition closeAdjust (line : string) (bracketCount : Z) : Z :=
  if endsWith line "}" then
    if negb (Strings.HasSuffix line "{}") then (bracketCount - 1)%Z
    else bracketCount
  else bracketCount.

(** Lines 456-458: the opening-brace adjustment. *)
Definition openAdjust (line : string) (bracketCount : Z) : Z :=
  if endsWith line "{" then (bracketCount + 1)%Z else bracketCount.

(** The local variables of the loop.  The counters are Go [int]s; they
    move by one per line, so they stay far from the 64-bit bounds. *)
Record SepState : Type := mkSep {
  stmtLines : list string;
  exprCount : Z;
  bracketCount : Z
}.

(** One iteration of the loop over the lines.  [inl st]: the loop goes
    on with [st]; [inr err]: [separateEvalStmt] returns [err]. *)
Definition sepLine (st : SepState) (line : string) : M (SepState + error) :=
  tried <-
    (if (bracketCount st =? 0)%Z && (length (stmtLines st) =? 0)%nat then
       r <- evalExpr line ;;
       match r with
       | inr _ => ret (Some (if endsWith line "{"
                             then (bracketCount st + 1)%Z
                             else bracketCount st))
       | inl _ => ret None                         (* continue *)
       end
     else ret (Some (bracketCount st))) ;;
  match tried with
  | None => ret (inl st)
  | Some bc0 =>
      let bc := openAdjust line (closeAdjust line bc0) in
      let lines := stmtLines st ++ [line] in
      if (bc =? 0)%Z && (0 <? length lines)%nat then
        err <- evalStmt (Strings.Join lines Strings.newline) true ;;
        match err with
        | Some e => ret (inr e)
        | None => ret (inl (mkSep [] (exprCount st) bc))
        end
      else ret (inl (mkSep lines (exprCount st + 1)%Z bc))
  end.

Fixpoint sepLoop (lines : list string) (st : SepState) : M (SepState + error) :=
  match lines with
  | [] => ret (inl st)
  | line :: rest =>
      r <- sepLine st line ;;
      match r with
      | inl st' => sepLoop rest st'
      | inr err => ret (inr err)
      end
  end.

(** The statements after the loop. *)
Definition sepFlush (st : SepState) : M (option error) :=
  if (0 <? length (stmtLines st))%nat then
    let noPrint := (0 <? exprCount st)%Z in
    evalStmt (Strings.Join (stmtLines st) Strings.newline) noPrint
  else ret None.

Definition separateEvalStmt (input : string) : M (option error) :=
  r <- sepLoop (Strings.Split input "010") (mkSep [] 0 0) ;;
  match r with
  | inr err => ret (Some err)
  | inl st => sepFlush st
  end.

(** *** cleanEvalStmt *)

Fixpoint cleanLoop (lines : list string) (stmtLs : list string) : M (list string) :=
  match lines with
  | [] => ret stmtLs
  | line :: rest =>
      s <- getSession ;;
      let beforeLines := slen (mainBody s) in
      r <- evalExpr line ;;
      match r with
      | inl expr =>
          pure <- (fun w => Done (isPureExpr env (history w) (session w) expr, w)) ;;
          if negb pure then
            truncateBody beforeLines ;;;
            cleanLoop rest (stmtLs ++ [line])
          else cleanLoop rest stmtLs
      | inr _ => cleanLoop rest (stmtLs ++ [line])
      end
  end.

Definition cleanEvalStmt (input : string) : M (option error) :=
  stmtLs <- cleanLoop (Strings.Split input "010") [] ;;
  if negb (length stmtLs =? 0)%nat then
    evalStmt (Strings.Join stmtLs Strings.newline) true
  else ret None.

(** *** Eval: the lines that carry special commands *)

(** The test of line 330: the line goes to [nonImportLines]. *)
Definition isPlainLine (line : string) : bool :=
  negb (Strings.HasPrefix line "import")
  && negb (Strings.HasPrefix line ":")
  && negb (Strings.HasPrefix (Strings.TrimSpace line) Strings.dquote)
  && negb (Strings.HasPrefix line ")").

Definition commandArg (line nm : string) : string :=
  let arg := Strings.TrimPrefix line (":" ++ nm)%string in
  if String.eqb nm "import" then Strings.TrimPrefix arg "import" else arg.

(** The lines between an opening parenthesis and the first line that
    holds a closing one; [following] are the lines after the current
    one.  [None]: the index [idx+advance] runs past the last line. *)
Fixpoint groupArgs (following : list string) (args : list string) : option (list string) :=
  match following with
  | [] => None
  | currentLine :: rest =>
      if Strings.Contains currentLine ")" then Some args
      else groupArgs rest (args ++ [currentLine])
  end.

(** The loop that applies the action to the arguments; [true]: the
    action answered [ErrQuit] and [Eval] returns it. *)
Fixpoint applyAction (act : string -> M (option error)) (args : list string) : M bool :=
  match args with
  | [] => ret false
  | arg :: rest =>
      if String.eqb arg "" || Strings.HasPrefix arg " " then
        err <- act (Strings.TrimSpace arg) ;;
        match err with
        | Some e => if isErrQuit e then ret true else applyAction act rest
        | None => applyAction act rest
        end
      else applyAction act rest
  end.

Fixpoint runCommands (cmds : list Command) (line : string) (following : list string) : M bool :=
  match cmds with
  | [] => ret false
  | command :: more =>
      let arg := commandArg line (name command) in
      if String.eqb arg line then runCommands more line following
      else
        args <- (if Strings.HasPrefix (Strings.TrimSpace arg) "("
                 then match groupArgs following [] with
                      | Some args => ret args
                      | None => panic "index out of range"
                      end
                 else ret [arg]) ;;
        quit <- applyAction (action command) args ;;
        if quit then ret true else runCommands more line following
  end.

(** The loop over [inLines]; [None]: [Eval] returns [ErrQuit]. *)
Fixpoint specialLoop (inLines : list string) (nonImportLines : list string) : M (option (list string)) :=
  match inLines with
  | [] => ret (Some nonImportLines)
  | line :: following =>
      if isPlainLine line then specialLoop following (nonImportLines ++ [line])
      else
        quit <- runCommands (commands env) line following ;;
        if quit then ret None else specialLoop following nonImportLines
  end.

(** *** Eval *)

Definition EvalResult : Type := (string * string * option error)%type.

(** Line 398: the run failed with exit status 2. *)
Definition isExitStatus2 (runErr : option error) : bool :=
  match runErr with
  | Some (ExitError (Some st) _) => (st =? 2)%Z
  | _ => false
  end.

(** Lines 394-405. *)
Definition interpretRun (stderr : string) (runErr : option error) : M (option error) :=
  if (match runErr with Some _ => true | None => false end)
     || negb (String.eqb stderr "") then
    if isExitStatus2 runErr then restoreMainBody ;;; ret None
    else ret runErr
  else ret runErr.

(** Lines 407-426. *)
Definition cleanup (input : string) (priorListLength : nat)
    (output stderr : string) (runErr : option error) : M EvalResult :=
  truncateBody priorListLength ;;;
  cerr <- cleanEvalStmt input ;;
  match cerr with
  | Some err => ret (output, stderr, Some err)
  | None =>
      s <- getSession ;;
      ferr <- call (EvCreate (FilePath s)) (fun h => os_Create env h (FilePath s)) ;;
      match ferr with
      | Some err => ret (output, stderr, Some err)
      | None =>
          perr <- call (EvFprint (FilePath s) (Imports s) (elems (mainBody s)))
                       (fun h => printer_Fprint env h (FilePath s) (Imports s)
                                                (elems (mainBody s))) ;;
          match perr with
          | Some err => ret (output, stderr, Some err)
          | None =>
              if negb (String.eqb stderr "") then
                ret (output, stderr,
                     Some (ErrorString "Unexpected stderr from execution"))
              else ret (output, stderr, runErr)
          end
      end
  end.

(** Lines 393-426: from the run to the return. *)
Definition runAndFinish (input : string) (priorListLength : nat) : M EvalResult :=
  r <- Run ;;
  let '(output, stderr, runErr) := r in
  runErr' <- interpretRun stderr runErr ;;
  cleanup input priorListLength output stderr runErr'.

(** Lines 385-426: the evaluation of the lines that are not special. *)
Definition evalInput (input : string) : M EvalResult :=
  s <- getSession ;;
  let priorListLength := slen (mainBody s) in
  err <- separateEvalStmt input ;;
  match err with
  | Some e => ret ("", error_Error e, Some e)
  | None => doQuickFix env ;;; runAndFinish input priorListLength
  end.

Definition Eval (input : string) : M EvalResult :=
  clearQuickFix env ;;;
  storeMainBody ;;;
  lines <- specialLoop (Strings.Split input "010") [] ;;
  match lines with
  | None => ret ("", "", Some ErrQuit)
  | Some nonImportLines =>
      let input' := Strings.Join nonImportLines Strings.newline in
      if (String.length input' =? 0)%nat then
        doQuickFix env ;;; ret ("", "", None)
      else evalInput input'
  end.

End Repl.

(* ================================================================== *)
(** ** A concrete environment

    The answers the real tools give on a handful of inputs, written as
    tables; it is used to run the model on concrete fragments. *)

Module Demo.

Definition sessionPath : string := "/tmp/s/gophernotes_session.go".

(** [parser.ParseExpr] on the inputs used below. *)
Definition ParseExpr (src : string) : Expr + error :=
  if String.eqb src "1" then inl (BasicLit "1")
  else if String.eqb src "y" then inl (Ident "y")
  else if String.eqb src "f()" then inl (CallExpr (Ident "f") [])
  else inr (ScannerErrorList "expected operand").

(** [parser.ParseFile] on ["package P; func F() { ... }"]. *)
Definition ParseFile (filename src : string) : ParsedFile :=
  if String.eqb src "package P; func F() { x := 5 }" then
    mkParsedFile (Some [AssignStmt [Ident "x"] ":=" [BasicLit "5"]]) None
  else if String.eqb src "package P; func F() { _ = 1 }" then
    mkParsedFile (Some [AssignStmt [Ident "_"] "=" [BasicLit "1"]]) None
  else if String.eqb src "package P; func F() { a, _ := g() }" then
    mkParsedFile
      (Some [AssignStmt [Ident "a"; Ident "_"] ":=" [CallExpr (Ident "g") []]])
      None
  else if String.eqb src "package P; func F() { f() }" then
    mkParsedFile (Some [ExprStmt (CallExpr (Ident "f") [])]) None
  else
    mkParsedFile None (Some (ScannerErrorList "stmt.go: syntax error")).

Definition ParseExt (filename src : string) : ExtFile + error :=
  inr (ScannerErrorList "syntax error").

(** [goimports -w] rejects a file that does not parse. *)
Definition goimports (h : Hist) (prog : string) (args : list string) : string * option error :=
  ("func_proxy.go:4:1: expected declaration",
   Some (ExitError (Some 2%Z) "exit status 2")).

Definition isPure (h : Hist) (s : Session) (e : Expr) : bool :=
  match e with
  | Ident _ | BasicLit _ => true
  | _ => false
  end.

(** The command table: [:import] records a path, [:quit] ends the session. *)
Definition table : list Command :=
  [ mkCommand "import" (fun arg =>
      s <- getSession ;;
      putSession (mkSession (FilePath s) (Imports s ++ [arg]) (ExtraFilePaths s)
                            (ExtraFiles s) (mainBody s) (storedBodyLength s)) ;;;
      ret None);
    mkCommand "quit" (fun _ => ret (Some ErrQuit)) ].

(** The environment in which [go run] answers [runs]. *)
Definition env (runs : string * string * option error) : Env :=
  mkEnv ParseExpr ParseFile ParseExt (fun f => f) (fun _ => "/tmp/s")
        (fun oldcap needed => Nat.max (2 * oldcap) needed)
        (fun _ _ => None) (fun _ _ _ => None) (fun _ _ _ _ => None)
        (fun _ _ _ => None)
        (fun _ _ => inl "package main") (fun _ _ _ => inl "/tmp/s/gore_extarnal_1")
        (fun _ _ _ => runs) goimports
        table (ret tt) (ret tt) isPure.

(** [go run] of a program that does not compile: exit status 2, the
    compiler's message on stderr. *)
Definition compileFailure (message : string) : string * string * option error :=
  ("", message, Some (ExitError (Some 2%Z) "exit status 2")).

Definition undefinedY : string := "./gophernotes_session.go:12: undefined: y".
Definition undefinedF : string := "./gophernotes_session.go:12: undefined: f".

Definition success (out : string) : string * string * option error :=
  (out, "", None).

(** A fresh session: the body of [main] is empty. *)
Definition session0 : Session :=
  mkSession sessionPath ["fmt"] [] [] (mkSlice [] []) 0.

Definition world0 : World := mkWorld session0 [].

(** A session that already holds [x := 5]. *)
Definition session1 : Session :=
  mkSession sessionPath ["fmt"] [] []
            (mkSlice [AssignStmt [Ident "x"] ":=" [BasicLit "5"]] []) 0.

Definition world1 : World := mkWorld session1 [].

(** The session once [separateEvalStmt] has taken the fragment [y]. *)
Definition worldY : World :=
  mkWorld (mkSession sessionPath ["fmt"] [] []
                     (mkSlice [ExprStmt (CallExpr (Ident printerName) [Ident "y"])] []) 0)
          [EvParseExpr "y"].

(** A session in which one external file has been imported. *)
Definition sessionAux : Session :=
  mkSession sessionPath ["fmt"] ["/tmp/s/gore_extarnal_1.go"]
            [mkExtFile "main" [FuncDecl "Helper" "func Helper() int { return 42 }"]]
            (mkSlice [] []) 0.

Definition worldAux : World := mkWorld sessionAux [].

End Demo.

(* ================================================================== *)
(** ** repl.go, continued: the session file, inclusion of external
    files and packages, and the creation of a session *)

(** The tree [parser.ParseFile] returns for a session file: its imports
    and the body of its function [main]; [sf_main] is [None] when
    [mainFunc] panics on the tree (no [main] in the file scope). *)
Record SessionFile : Type := mkSessionFile {
  sf_imports : list string;
  sf_main : option Slice
}.

(** What [build.Import] and [build.ImportDir] return: the directory of
    the package and the names of its Go files. *)
Record Package : Type := mkPackage {
  Dir : string;
  GoFiles : list string
}.

(** The rest of the environment.  [printer_Config_Fprint space] renders
    the session file into a buffer with the configuration [source]
    builds for [space]; [parser_ParseImports] yields the import paths, as
    they are written, of a source that parses; [actionImport] belongs to
    the command table of the package.  The calls of package [build] have
    no event of their own; they see the history as it is when they are
    made. *)
Record Ext : Type := mkExt {
  printer_Config_Fprint : bool -> list string -> list Stmt -> string * option error;
  parser_ParseSession : string -> string -> SessionFile + error;
  parser_ParseImports : string -> list string + error;
  actionImport : string -> M (option error);
  filepath_Join : string -> string -> string;
  build_Import : Hist -> string -> Package + error;
  build_ImportDir : Hist -> string -> Package + error
}.

Section ReplMore.

Variable env : Env.
Variable ext : Ext.

(** [source]: [normalizeNodePos] acts on positions only, which the model
    does not carry.  The text of the buffer is returned with the error. *)
Definition source (space : bool) : M (string * option error) :=
  s <- getSession ;;
  ret (printer_Config_Fprint ext space (Imports s) (elems (mainBody s))).

Definition replaceFile (s : Session) (sf_imps : list string) (body : Slice) : Session :=
  mkSession (FilePath s) sf_imps (ExtraFilePaths s) (ExtraFiles s) body
            (storedBodyLength s).

Definition reset : M (option error) :=
  r <- source false ;;
  match snd r with
  | Some err => ret (Some err)
  | None =>
      pf <- call (EvParseFile "gophernotes_session.go" (fst r))
                 (fun _ => parser_ParseSession ext "gophernotes_session.go" (fst r)) ;;
      match pf with
      | inr err => ret (Some err)
      | inl file =>
          match sf_main file with
          | None => panic "invalid memory address or nil pointer dereference"
          | Some body =>
              s <- getSession ;;
              putSession (replaceFile s (sf_imports file) body) ;;; ret None
          end
      end
  end.

(** The loop of [importPackages] over the imports of the file; the
    result of [actionImport] is dropped. *)
Fixpoint importEach (paths : list string) : M unit :=
  match paths with
  | [] => ret tt
  | p :: rest => actionImport ext p ;;; importEach rest
  end.

Definition importPackages (src : string) : M (option error) :=
  astf <- call (EvParseFile "" src) (fun _ => parser_ParseImports ext src) ;;
  match astf with
  | inr err => ret (Some err)
  | inl imports => importEach imports ;;; ret None
  end.

(** [includeFile] reports its errors to the log only. *)
Definition includeFile (file : string) : M unit :=
  rf <- call (EvReadFile file) (fun h => ioutil_ReadFile env h file) ;;
  match rf with
  | inr _ => ret tt
  | inl content =>
      perr <- importPackages content ;;
      match perr with
      | Some _ => ret tt
      | None => importFile env content ;;; ret tt
      end
  end.

Fixpoint includeFiles (files : list string) : M unit :=
  match files with
  | [] => ret tt
  | file :: rest => includeFile file ;;; includeFiles rest
  end.

Definition includePackage (path : string) : M (option error) :=
  r <- (fun w => Done (build_Import ext (history w) path, w)) ;;
  pkg <- match r with
         | inl pkg => ret (inl pkg)
         | inr err =>
             r2 <- (fun w => Done (build_ImportDir ext (history w) path, w)) ;;
             match r2 with
             | inl pkg => ret (inl pkg)
             | inr _ => ret (inr err)
             end
         end ;;
  match pkg with
  | inr err => ret (Some err)
  | inl pkg =>
      includeFiles (map (filepath_Join ext (Dir pkg)) (GoFiles pkg)) ;;; ret None
  end.

End ReplMore.

(** *** NewSession

    A session is created once, before any event of the history; each of
    the calls below is made at most once per argument, so their answers
    are taken as they come. *)
Record Boot : Type := mkBoot {
  ioutil_TempDir : string + error;             (* ioutil.TempDir("", "") *)
  os_MkdirAll : string -> option error;        (* os.MkdirAll(dir, 0755) *)
  boot_Join : string -> string -> string;      (* filepath.Join *)
  importer_Import : string -> option error;    (* the error of importer.Default().Import *)
  boot_ParseFile : string -> string -> SessionFile + error
}.

Definition tab : string := String "009" "".

(** [%q] on a string of printable ASCII without quote or backslash, as
    the paths of [printerPkgs] are. *)
Definition quoted (s : string) : string :=
  (Strings.dquote ++ s ++ Strings.dquote)%string.

(** [fmt.Sprintf(initialSourceTemplate, path, code)] *)
Definition initialSource (path code : string) : string :=
  (Strings.newline ++
   "package main" ++ Strings.newline ++
   Strings.newline ++
   "import " ++ quoted path ++ Strings.newline ++
   Strings.newline ++
   "func " ++ printerName ++ "(xx ...interface{}) {" ++ Strings.newline ++
   tab ++ "for _, x := range xx {" ++ Strings.newline ++
   tab ++ tab ++ code ++ Strings.newline ++
   tab ++ "}" ++ Strings.newline ++
   "}" ++ Strings.newline ++
   Strings.newline ++
   "func main() {" ++ Strings.newline ++
   "}" ++ Strings.newline)%string.

Definition printerPkgs : list (string * string) :=
  [ ("github.com/k0kubun/pp", "pp.Println(x)");
    ("github.com/davecgh/go-spew/spew",
     ("spew.Printf(" ++ Strings.dquote ++ "%#v\n" ++ Strings.dquote ++ ", x)")%string);
    ("fmt",
     ("fmt.Printf(" ++ Strings.dquote ++ "%#v\n" ++ Strings.dquote ++ ", x)")%string) ].

Section Boot.

Variable boot : Boot.

Definition tempFile : string + error :=
  match ioutil_TempDir boot with
  | inr err => inr err
  | inl dir =>
      match os_MkdirAll boot dir with
      | Some err => inr err
      | None => inl (boot_Join boot dir "gophernotes_session.go")
      end
  end.

(** The loop over [printerPkgs]: the source for the first package that
    can be imported, the empty string when there is none. *)
Fixpoint pickSource (pkgs : list (string * string)) : string :=
  match pkgs with
  | [] => ""
  | (path, code) :: rest =>
      match importer_Import boot path with
      | None => initialSource path code
      | Some _ => pickSource rest
      end
  end.

Definition NewSession : Outcome (Session + error) :=
  match tempFile with
  | inr err => Done (inr err)
  | inl filePath =>
      let src := pickSource printerPkgs in
      if String.eqb src "" then
        Done (inr (ErrorString "Could not load pretty printing package"))
      else
        match boot_ParseFile boot "gophernotes_session.go" src with
        | inr err => Done (inr err)
        | inl file =>
            match sf_main file with
            | None => Panic "invalid memory address or nil pointer dereference"
            | Some body =>
                Done (inl (mkSession filePath (sf_imports file) [] [] body 0))
            end
        end
  end.

End Boot.

Module DemoMore.

Definition helperSrc : string := "package helper; func Helper() int { return 42 }".

(** An external world with one readable file, [helper.go], and one
    package directory, [./lib], that holds it. *)
Definition ReadFile (h : Hist) (path : string) : string + error :=
  if String.eqb path "lib/helper.go" then inl helperSrc
  else inr (OtherError "open: no such file or directory").

Definition ParseExt (filename src : string) : ExtFile + error :=
  if String.eqb src helperSrc then
    inl (mkExtFile "helper" [FuncDecl "Helper" "func Helper() int { return 42 }"])
  else inr (ScannerErrorList "syntax error").

Definition env : Env :=
  mkEnv Demo.ParseExpr Demo.ParseFile ParseExt (fun f => f) (fun _ => "/tmp/s")
        (fun oldcap needed => Nat.max (2 * oldcap) needed)
        (fun _ _ => None) (fun _ _ _ => None) (fun _ _ _ _ => None)
        (fun _ _ _ => None)
        ReadFile (fun _ _ _ => inl "/tmp/s/gore_extarnal_1")
        (fun _ _ _ => Demo.success "") Demo.goimports
        Demo.table (ret tt) (ret tt) Demo.isPure.

Definition render (space : bool) (imports : list string) (body : list Stmt) : string * option error :=
  match body with
  | [] => ("package main; func main() {}", None)
  | _ => ("", Some (OtherError "unsupported node"))
  end.

Definition ParseSession (filename src : string) : SessionFile + error :=
  if String.eqb src "package main; func main() {}" then
    inl (mkSessionFile [] (Some (mkSlice [] [])))
  else inr (ScannerErrorList "syntax error").

Definition ext : Ext :=
  mkExt render ParseSession
        (fun src => if String.eqb src helperSrc then inl [] else inr (ScannerErrorList "syntax error"))
        (fun _ => ret None)
        (fun dir f => (dir ++ "/" ++ f)%string)
        (fun _ path => if String.eqb path "./lib"
                       then inl (mkPackage "lib" ["helper.go"; "gone.go"])
                       else inr (OtherError "cannot find package"))
        (fun _ _ => inr (OtherError "no such directory")).

(** A machine on which only [fmt] can be imported. *)
Definition boot : Boot :=
  mkBoot (inl "/tmp/s") (fun _ => None) (fun dir f => (dir ++ "/" ++ f)%string)
         (fun path => if String.eqb path "fmt" then None
                      else Some (OtherError "can't find import"))
         (fun _ src => inl (mkSessionFile ["fmt"] (Some (mkSlice [] [])))).

(** A machine without any of the printing packages. *)
Definition bare : Boot :=
  mkBoot (inl "/tmp/s") (fun _ => None) (fun dir f => (dir ++ "/" ++ f)%string)
         (fun _ => Some (OtherError "can't find import"))
         (fun _ _ => inr (ScannerErrorList "syntax error")).

(** A machine on which the session file cannot be created. *)
Definition envFull : Env :=
  mkEnv Demo.ParseExpr Demo.ParseFile ParseExt (fun f => f) (fun _ => "/tmp/s")
        (fun oldcap needed => Nat.max (2 * oldcap) needed)
        (fun _ _ => Some (OtherError "no space left on device"))
        (fun _ _ _ => None) (fun _ _ _ _ => None)
        (fun _ _ _ => None)
        ReadFile (fun _ _ _ => inl "/tmp/s/gore_extarnal_1")
        (fun _ _ _ => Demo.success "") Demo.goimports
        Demo.table (ret tt) (ret tt) Demo.isPure.

(** An environment whose command table has no [:quit]. *)
Definition importOnly : list Command :=
  [ mkCommand "import" (fun _ => ret (Some (OtherError "cannot find package"))) ].

Definition envNoQuit : Env :=
  mkEnv Demo.ParseExpr Demo.ParseFile ParseExt (fun f => f) (fun _ => "/tmp/s")
        (fun oldcap needed => Nat.max (2 * oldcap) needed)
        (fun _ _ => None) (fun _ _ _ => None) (fun _ _ _ _ => None)
        (fun _ _ _ => None)
        ReadFile (fun _ _ _ => inl "/tmp/s/gore_extarnal_1")
        (fun _ _ _ => Demo.success "") Demo.goimports
        importOnly (ret tt) (ret tt) Demo.isPure.





End DemoMore.

(* ================================================================== *)
(** ** The vocabulary of the statements *)

(** [wp m Q w]: when [m] runs from [w] and returns, [Q] holds of the
    result and the final world. *)
Definition wp {A} (m : M A) (Q : A -> World -> Prop) (w : World) : Prop :=
  match m w with
  | Done (a, w') => Q a w'
  | Panic _ => True
  end.

(** The body of [main] starts with [base]. *)
Definition startsWith (base : list Stmt) (w : World) : Prop :=
  exists tail, elems (mainBody (session w)) = base ++ tail.

(** The backing array of the body starts with [base]. *)
Definition cellsStartWith (base : list Stmt) (w : World) : Prop :=
  exists tail,
    elems (mainBody (session w)) ++ spare (mainBody (session w)) = base ++ tail.

(** [m] keeps every prefix of the body in place. *)
Definition keepsPrefix {A} (m : M A) : Prop :=
  forall base w, startsWith base w -> wp m (fun _ w' => startsWith base w') w.

(** C6 as stated: a block that ends in an assignment, evaluated with
    [noPrint = false], always gets one printer call after its
    statements, with the left-hand sides that are not blank. *)
Definition echoes_always (env : Env) (input : string) (w : World) : Prop :=
  forall stmts lhs tok rhs,
    parser_ParseFile env "stmt.go" (stmtSource input) = mkParsedFile (Some stmts) None ->
    last stmts NilStmt = AssignStmt lhs tok rhs ->
    exists w', evalStmt env input false w = Done (None, w')
      /\ elems (mainBody (session w'))
         = elems (mainBody (session w)) ++ stmts ++ [printCall (printedLhs lhs)].

(** C8 as stated: the counter goes down exactly when the last byte is a
    closing brace and the line is not the two-byte string of an empty block. *)
Definition closes_unless_literal (line : string) (bracketCount : Z) : Prop :=
  closeAdjust line bracketCount = (bracketCount - 1)%Z
  <-> (Strings.trailing line = Some "}"%char /\ line <> "{}").

(** The history only grows. *)
Definition extends (h : Hist) (w : World) : Prop :=
  exists more, history w = h ++ more.

(** The depth the counter has after lines 439-458 ran on a line that was
    not taken as an expression. *)
Definition depthAfter (st : SepState) (line : string) : Z :=
  let tried :=
    if (bracketCount st =? 0)%Z && (length (stmtLines st) =? 0)%nat
    then (if endsWith line "{" then (bracketCount st + 1)%Z else bracketCount st)
    else bracketCount st in
  openAdjust line (closeAdjust line tried).

(** C4 as stated, on a fragment evaluated from [w], in its weakest
    reading: when the loop over the lines ends with the counter above
    zero, the only error [separateEvalStmt] may return is [ErrContinue]. *)
Definition continues_when_open (env : Env) (input : string) (w : World) : Prop :=
  forall st w1 err w',
    sepLoop env (Strings.Split input "010") (mkSep [] 0 0) w = Done (inl st, w1) ->
    (0 < bracketCount st)%Z ->
    separateEvalStmt env input w = Done (Some err, w') ->
    err = ErrContinue.



(** The declaration is a function named [main]. *)
Definition isMain (d : Decl) : bool :=
  match d with
  | FuncDecl n _ => String.eqb n "main"
  | GenDecl _ => false
  end.

(** What evaluation leaves alone in a session, relative to the world
    [w] it started from: the file path, the imports and the checkpoint
    are those of [w], and the auxiliary paths and files are those of [w]
    followed by equally many new entries. *)
Definition frame (w : World) (s : Session) : Prop :=
  FilePath s = FilePath (session w)
  /\ Imports s = Imports (session w)
  /\ storedBodyLength s = storedBodyLength (session w)
  /\ exists morePaths moreFiles,
       ExtraFilePaths s = ExtraFilePaths (session w) ++ morePaths
       /\ ExtraFiles s = ExtraFiles (session w) ++ moreFiles
       /\ length morePaths = length moreFiles.

(** The parser rejects the line as an expression. *)
Definition notExpr (env : Env) (line : string) : bool :=
  match parser_ParseExpr env line with
  | inr _ => true
  | inl _ => false
  end.

(** From [w0] to [w] the list of auxiliary paths has grown at its end
    by at most [k] entries. *)
Definition grows (w0 : World) (k : nat) (w : World) : Prop :=
  exists more,
    ExtraFilePaths (session w) = ExtraFilePaths (session w0) ++ more
    /\ (length more <= k)%nat.

(** The importer accepts the package. *)
Definition importable (boot : Boot) (path : string) : bool :=
  match importer_Import boot path with
  | None => true
  | Some _ => false
  end.



(** Since the history [h0], every file of [files] has been read. *)
Definition readAll (h0 : Hist) (files : list string) (w : World) : Prop :=
  exists more,
    history w = h0 ++ more
    /\ forall f, In f files -> In (EvReadFile f) more.

(* ================================================================== *)
(** * Properties *)

Set Implicit Arguments.

(** ** Strings *)

Lemma substring_from_last (s : string) (n : nat) :
  String.length s = S n ->
  substring n 1 s = match String.get n s with
                    | Some c => String c EmptyString
                    | None => EmptyString
                    end.
Proof.
  revert n. induction s as [|c s IH]; intros n H; simpl in H; [discriminate|].
  injection H as H. destruct n as [|n].
  - simpl. destruct s; [reflexivity | discriminate].
  - simpl. apply IH. exact H.
Qed.

Lemma get_last_some (s : string) (n : nat) :
  String.length s = S n -> exists c, String.get n s = Some c.
Proof.
  revert n. induction s as [|c s IH]; intros n H; simpl in H; [discriminate|].
  injection H as H. destruct n as [|n].
  - exists c. reflexivity.
  - simpl. apply IH. exact H.
Qed.

Lemma lastIndexFrom_bound (s sep : string) (i : nat) :
  (-1 <= Strings.lastIndexFrom s sep i <= Z.of_nat i)%Z.
Proof.
  induction i as [|i IH]; simpl.
  - destruct (String.eqb _ _); lia.
  - destruct (String.eqb _ _); lia.
Qed.

(** On a line that is not empty, the test [LastIndex(line, c) ==
    len(line)-1] holds exactly when [c] is the last byte. *)
Lemma endsWith_trailing (line : string) (c : ascii) :
  line <> "" ->
  endsWith line (String c "") = true <-> Strings.trailing line = Some c.
Proof.
  intros Hne. unfold endsWith, Strings.trailing, Strings.LastIndex, Strings.len.
  destruct (String.length line) as [|n] eqn:Hlen.
  - destruct line; [congruence | discriminate].
  - change (String.length (String c "")) with 1%nat.
    replace (1 <=? S n)%nat with true by (symmetry; apply Nat.leb_le; lia).
    replace (S n - 1)%nat with n by lia.
    destruct (get_last_some line Hlen) as [d Hd].
    destruct n as [|n]; simpl Strings.lastIndexFrom;
      change (String.length (String c "")) with 1%nat;
      rewrite (substring_from_last line Hlen), Hd.
    + destruct (String.eqb (String d "") (String c "")) eqn:E.
      * apply String.eqb_eq in E. injection E as ->. split; [reflexivity|intros; reflexivity].
      * apply String.eqb_neq in E. split; [intro H; apply Z.eqb_eq in H; lia|].
        intro H. injection H as ->. congruence.
    + destruct (String.eqb (String d "") (String c "")) eqn:E.
      * apply String.eqb_eq in E. injection E as ->.
        split; [reflexivity|intros _; apply Z.eqb_eq; lia].
      * apply String.eqb_neq in E.
        pose proof (lastIndexFrom_bound line (String c "") n) as B.
        split; [intro H; apply Z.eqb_eq in H; lia|].
        intro H. injection H as ->. congruence.
Qed.

(** The empty line passes both tests: [LastIndex] answers [-1], which is
    [len(line)-1]. *)
Lemma endsWith_empty (sep : string) :
  sep <> "" -> endsWith "" sep = true.
Proof.
  intro H. destruct sep; [congruence | reflexivity].
Qed.

(** ** Slices *)

Lemma elems_appendSlice (g : nat -> nat -> nat) (sl : Slice) (xs : list Stmt) :
  elems (appendSlice g sl xs) = elems sl ++ xs.
Proof.
  unfold appendSlice. destruct (length xs <=? length (spare sl))%nat; reflexivity.
Qed.

(** A reslice moves the boundary between [elems] and [spare] and leaves
    the cells of the backing array alone. *)
Lemma reslice_cells (sl b : Slice) (n : nat) :
  reslice sl n = Some b ->
  elems b ++ spare b = elems sl ++ spare sl
  /\ elems b = firstn n (elems sl ++ spare sl).
Proof.
  unfold reslice, slen, scap. intro H.
  destruct (n <=? length (elems sl))%nat eqn:E1.
  - apply Nat.leb_le in E1. injection H as <-. simpl. split.
    + rewrite app_assoc, firstn_skipn. reflexivity.
    + rewrite firstn_app. replace (n - length (elems sl))%nat with 0%nat by lia.
      rewrite firstn_O, app_nil_r. reflexivity.
  - apply Nat.leb_gt in E1.
    destruct (n <=? length (elems sl) + length (spare sl))%nat eqn:E2; [|discriminate].
    injection H as <-. simpl. split.
    + rewrite <- app_assoc, firstn_skipn. reflexivity.
    + rewrite firstn_app, (firstn_all2 (elems sl)) by lia. reflexivity.
Qed.

Lemma reslice_within (sl : Slice) (n : nat) :
  (n <= slen sl)%nat ->
  reslice sl n = Some (mkSlice (firstn n (elems sl)) (skipn n (elems sl) ++ spare sl)).
Proof.
  intro H. unfold reslice. apply Nat.leb_le in H. rewrite H. reflexivity.
Qed.

(** ** Reasoning about computations in [M] *)

Lemma wp_ret {A} (a : A) (Q : A -> World -> Prop) w :
  Q a w -> wp (ret a) Q w.
Proof. exact (fun H => H). Qed.

Lemma wp_bind {A B} (m : M A) (k : A -> M B) (Q : B -> World -> Prop) w :
  wp m (fun a w' => wp (k a) Q w') w -> wp (bind m k) Q w.
Proof.
  unfold wp, bind. destruct (m w) as [[a w']|why]; trivial.
Qed.

Lemma wp_mono {A} (m : M A) (P Q : A -> World -> Prop) w :
  (forall a w', P a w' -> Q a w') -> wp m P w -> wp m Q w.
Proof.
  unfold wp. intros H. destruct (m w) as [[a w']|why]; auto.
Qed.

Lemma wp_done {A} (m : M A) (Q : A -> World -> Prop) w a w' :
  wp m Q w -> m w = Done (a, w') -> Q a w'.
Proof. unfold wp. intros H E. rewrite E in H. exact H. Qed.

Lemma wp_call {A} (e : Event) (answer : Hist -> A) (Q : A -> World -> Prop) w :
  Q (answer (history w)) (mkWorld (session w) (history w ++ [e])) ->
  wp (call e answer) Q w.
Proof. exact (fun H => H). Qed.

Lemma wp_getSession (Q : Session -> World -> Prop) w :
  Q (session w) w -> wp getSession Q w.
Proof. exact (fun H => H). Qed.

Lemma wp_putSession (s : Session) (Q : unit -> World -> Prop) w :
  Q tt (mkWorld s (history w)) -> wp (putSession s) Q w.
Proof. exact (fun H => H). Qed.

Lemma wp_panic {A} (why : string) (Q : A -> World -> Prop) w :
  wp (panic why) Q w.
Proof. exact I. Qed.

Lemma startsWith_length base w :
  startsWith base w -> (length base <= slen (mainBody (session w)))%nat.
Proof.
  intros [t H]. unfold slen. rewrite H, length_app. lia.
Qed.

Lemma startsWith_cells base w : startsWith base w -> cellsStartWith base w.
Proof.
  intros [t H]. exists (t ++ spare (mainBody (session w))).
  rewrite H, app_assoc. reflexivity.
Qed.

Lemma startsWith_same_session base w w' :
  session w' = session w -> startsWith base w -> startsWith base w'.
Proof. unfold startsWith. intros ->. trivial. Qed.

Lemma wp_seq {A B} (m : M A) (k : A -> M B) (I : World -> Prop) w :
  wp m (fun _ w' => I w') w ->
  (forall a w', I w' -> wp (k a) (fun _ w'' => I w'') w') ->
  wp (bind m k) (fun _ w'' => I w'') w.
Proof.
  intros Hm Hk. apply wp_bind. eapply wp_mono; [|exact Hm].
  intros a w' H. apply Hk. exact H.
Qed.

Ltac wp_step :=
  lazymatch goal with
  | |- wp (bind _ _) _ _ => apply wp_bind
  | |- wp (call _ _) _ _ => apply wp_call
  | |- wp getSession _ _ => apply wp_getSession
  | |- wp (putSession _) _ _ => apply wp_putSession
  | |- wp (panic _) _ _ => apply wp_panic
  | |- wp (ret _) _ _ => apply wp_ret
  end;
  cbv beta.

Section Frames.

Variable env : Env.
Variable base : list Stmt.

Lemma appendStatements_startsWith stmts w :
  startsWith base w -> wp (appendStatements env stmts) (fun _ w' => startsWith base w') w.
Proof.
  intros [t H]. unfold appendStatements. repeat wp_step.
  exists (t ++ stmts). simpl. rewrite elems_appendSlice, H, app_assoc. reflexivity.
Qed.

(** Cutting the body to a length that covers [base] keeps [base], even
    when the cut brings cells of the backing array back. *)
Lemma truncateBody_startsWith n w :
  (length base <= n)%nat -> cellsStartWith base w ->
  wp (truncateBody n) (fun _ w' => startsWith base w') w.
Proof.
  intros Hn [t H]. unfold truncateBody. wp_step. wp_step.
  destruct (reslice (mainBody (session w)) n) as [b|] eqn:E; [|apply wp_panic].
  wp_step. destruct (reslice_cells _ _ E) as [_ Hb].
  exists (firstn (n - length base) t). simpl. rewrite Hb, H, firstn_app.
  rewrite firstn_all2 by lia. reflexivity.
Qed.

Lemma truncateBody_cells n w :
  cellsStartWith base w ->
  wp (truncateBody n) (fun _ w' => cellsStartWith base w') w.
Proof.
  intros [t H]. unfold truncateBody. wp_step. wp_step.
  destruct (reslice (mainBody (session w)) n) as [b|] eqn:E; [|apply wp_panic].
  wp_step. destruct (reslice_cells _ _ E) as [Hb _].
  exists t. simpl. rewrite Hb. exact H.
Qed.

Lemma evalExpr_startsWith line w :
  startsWith base w -> wp (evalExpr env line) (fun _ w' => startsWith base w') w.
Proof.
  intro H. unfold evalExpr. wp_step. wp_step.
  destruct (parser_ParseExpr env line) as [e|err].
  - wp_step. eapply wp_mono; [|apply appendStatements_startsWith; exact H].
    intros ? w' H'. wp_step. exact H'.
  - wp_step. exact H.
Qed.

Lemma importFile_startsWith src w :
  startsWith base w -> wp (importFile env src) (fun _ w' => startsWith base w') w.
Proof.
  intro H. unfold importFile. wp_step. wp_step. wp_step. wp_step.
  destruct (ioutil_TempFile env _ _ _) as [tmp|err]; [|wp_step; exact H].
  wp_step. wp_step.
  destruct (parser_ParseExt env _ _) as [f0|err]; [|wp_step; exact H].
  destruct (removeMain (Decls f0)) as [ds removed].
  wp_step. wp_step.
  destruct (os_Create env _ _); [wp_step; exact H|].
  wp_step. wp_step.
  destruct (printer_FprintExt env _ _ _); [wp_step; exact H|].
  repeat wp_step. exact H.
Qed.

Lemma evalStmtFallback_startsWith input w :
  startsWith base w ->
  wp (evalStmtFallback env input) (fun _ w' => startsWith base w') w.
Proof.
  intro H. unfold evalStmtFallback. wp_step. wp_step. wp_step. wp_step.
  destruct (os_Create env _ _); [wp_step; exact H|].
  wp_step. wp_step.
  destruct (file_Write env _ _ _); [wp_step; exact H|].
  wp_step. wp_step.
  destruct (snd (exec_Combined env _ _ _)); [wp_step; exact H|].
  wp_step. wp_step.
  destruct (ioutil_ReadFile env _ _) as [fp|err]; [|wp_step; exact H].
  wp_step. eapply wp_mono; [|apply importFile_startsWith; exact H].
  intros ierr w' H'. cbv beta.
  destruct ierr as [[]|]; wp_step; exact H'.
Qed.

Lemma evalStmt_startsWith input noPrint w :
  startsWith base w ->
  wp (evalStmt env input noPrint) (fun _ w' => startsWith base w') w.
Proof.
  intro H. unfold evalStmt. wp_step. wp_step. wp_step.
  set (pf := parser_ParseFile env "stmt.go" (stmtSource input)).
  assert (Hfb : wp (match pf_err pf with
                    | Some _ => evalStmtFallback env input
                    | None => ret None
                    end) (fun _ w' => startsWith base w')
                   (mkWorld (session w)
                      (history w ++ [EvParseFile "stmt.go" (stmtSource input)]))).
  { destruct (pf_err pf).
    - apply evalStmtFallback_startsWith. exact H.
    - wp_step. exact H. }
  eapply wp_mono; [|exact Hfb].
  intros r w' H'. cbv beta. destruct r as [err|]; [wp_step; exact H'|].
  destruct (pf_F pf) as [stmts|]; [|apply wp_panic].
  wp_step. eapply wp_mono; [|apply appendStatements_startsWith; exact H'].
  intros ? w'' H''. wp_step. exact H''.
Qed.

Lemma sepLine_startsWith st line w :
  startsWith base w ->
  wp (sepLine env st line) (fun _ w' => startsWith base w') w.
Proof.
  intro H. unfold sepLine. apply wp_seq with (I := startsWith base).
  - destruct ((bracketCount st =? 0)%Z && (length (stmtLines st) =? 0)%nat).
    + apply wp_seq with (I := startsWith base).
      * apply evalExpr_startsWith. exact H.
      * intros [e|err] w' H'; wp_step; exact H'.
    + wp_step. exact H.
  - intros [bc0|] w' H'; [|wp_step; exact H'].
    destruct (_ && _).
    + apply wp_seq with (I := startsWith base).
      * apply evalStmt_startsWith. exact H'.
      * intros [e|] w'' H''; wp_step; exact H''.
    + wp_step. exact H'.
Qed.

Lemma sepLoop_startsWith lines st w :
  startsWith base w ->
  wp (sepLoop env lines st) (fun _ w' => startsWith base w') w.
Proof.
  revert st w. induction lines as [|line rest IH]; intros st w H; simpl.
  - wp_step. exact H.
  - apply wp_seq with (I := startsWith base).
    + apply sepLine_startsWith. exact H.
    + intros [st'|err] w' H'; [apply IH; exact H' | wp_step; exact H'].
Qed.

Lemma separateEvalStmt_startsWith input w :
  startsWith base w ->
  wp (separateEvalStmt env input) (fun _ w' => startsWith base w') w.
Proof.
  intro H. unfold separateEvalStmt. apply wp_seq with (I := startsWith base).
  - apply sepLoop_startsWith. exact H.
  - intros [st|err] w' H'; [|wp_step; exact H'].
    unfold sepFlush. destruct (0 <? length (stmtLines st))%nat.
    + apply evalStmt_startsWith. exact H'.
    + wp_step. exact H'.
Qed.

Lemma cleanLoop_startsWith lines acc w :
  startsWith base w ->
  wp (cleanLoop env lines acc) (fun _ w' => startsWith base w') w.
Proof.
  revert acc w. induction lines as [|line rest IH]; intros acc w H; simpl.
  - wp_step. exact H.
  - wp_step. wp_step.
    pose proof (startsWith_length H) as Hlen.
    apply wp_seq with (I := startsWith base).
    + apply evalExpr_startsWith. exact H.
    + intros [expr|err] w1 H1; [|apply IH; exact H1].
      apply wp_bind. unfold wp at 1. cbv beta.
      destruct (negb _).
      * apply wp_seq with (I := startsWith base).
        -- apply truncateBody_startsWith; [exact Hlen|].
           apply startsWith_cells. exact H1.
        -- intros ? w2 H2. apply IH. exact H2.
      * apply IH. exact H1.
Qed.

Lemma cleanEvalStmt_startsWith input w :
  startsWith base w ->
  wp (cleanEvalStmt env input) (fun _ w' => startsWith base w') w.
Proof.
  intro H. unfold cleanEvalStmt. apply wp_seq with (I := startsWith base).
  - apply cleanLoop_startsWith. exact H.
  - intros ls w' H'. destruct (negb _).
    + apply evalStmt_startsWith. exact H'.
    + wp_step. exact H'.
Qed.

Lemma Run_session w :
  wp (Run env) (fun _ w' => session w' = session w) w.
Proof.
  unfold Run, goRun. wp_step. wp_step. wp_step. wp_step.
  destruct (os_Create env _ _); [wp_step; reflexivity|].
  wp_step. wp_step.
  destruct (printer_Fprint env _ _ _ _); [wp_step; reflexivity|].
  wp_step. reflexivity.
Qed.

Lemma interpretRun_cells stderr runErr w :
  cellsStartWith base w ->
  wp (interpretRun stderr runErr) (fun _ w' => cellsStartWith base w') w.
Proof.
  intro H. unfold interpretRun, restoreMainBody.
  destruct (_ || _); [|wp_step; exact H].
  destruct (isExitStatus2 runErr); [|wp_step; exact H].
  apply wp_seq with (I := cellsStartWith base); [|intros; wp_step; assumption].
  wp_step. wp_step. apply truncateBody_cells. exact H.
Qed.

Lemma cleanup_startsWith input prior output stderr runErr w :
  (length base <= prior)%nat -> cellsStartWith base w ->
  wp (cleanup env input prior output stderr runErr)
     (fun _ w' => startsWith base w') w.
Proof.
  intros Hp H. unfold cleanup. apply wp_seq with (I := startsWith base).
  - apply truncateBody_startsWith; assumption.
  - intros ? w1 H1. apply wp_seq with (I := startsWith base).
    + apply cleanEvalStmt_startsWith. exact H1.
    + intros [err|] w2 H2; [wp_step; exact H2|].
      wp_step. wp_step. wp_step. wp_step.
      destruct (os_Create env _ _); [wp_step; exact H2|].
      wp_step. wp_step.
      destruct (printer_Fprint env _ _ _ _); [wp_step; exact H2|].
      destruct (negb _); wp_step; exact H2.
Qed.

Lemma runAndFinish_startsWith input prior w :
  (length base <= prior)%nat -> startsWith base w ->
  wp (runAndFinish env input prior) (fun _ w' => startsWith base w') w.
Proof.
  intros Hp H. unfold runAndFinish. apply wp_bind.
  eapply wp_mono; [|apply Run_session].
  intros [[output stderr] runErr] w1 Hs. cbv beta.
  apply wp_bind. eapply wp_mono;
    [|apply (interpretRun_cells stderr runErr);
      apply startsWith_cells; eapply startsWith_same_session; [exact Hs|exact H]].
  intros runErr' w2 H2. cbv beta. apply cleanup_startsWith; assumption.
Qed.

End Frames.

(** ** Eval keeps the statements below the checkpoint

    [doQuickFix] and the actions of the command table are not part of
    repl.go; what the engine needs from them is that they leave every
    prefix of the body in place. *)

Section EvalFrames.

Variable env : Env.
Hypothesis quickfix_keeps : keepsPrefix (doQuickFix env).
Hypothesis actions_keep :
  forall c arg, In c (commands env) -> keepsPrefix (action c arg).

Variable base : list Stmt.

Lemma applyAction_startsWith c args w :
  In c (commands env) -> startsWith base w ->
  wp (applyAction (action c) args) (fun _ w' => startsWith base w') w.
Proof.
  intro Hin. revert w. induction args as [|arg rest IH]; intros w H; simpl.
  - wp_step. exact H.
  - destruct (_ || _); [|apply IH; exact H].
    apply wp_seq with (I := startsWith base).
    + apply actions_keep; [exact Hin | exact H].
    + intros [e|] w' H'; [destruct (isErrQuit e); [wp_step; exact H'|]|];
        apply IH; exact H'.
Qed.

Lemma runCommands_startsWith cmds line following w :
  incl cmds (commands env) -> startsWith base w ->
  wp (runCommands cmds line following) (fun _ w' => startsWith base w') w.
Proof.
  revert w. induction cmds as [|c more IH]; intros w Hincl H; simpl.
  - wp_step. exact H.
  - assert (Hmore : incl more (commands env))
      by (intros x Hx; apply Hincl; right; exact Hx).
    destruct (String.eqb _ line); [apply IH; assumption|].
    apply wp_seq with (I := startsWith base).
    + destruct (Strings.HasPrefix _ "(").
      * destruct (groupArgs following []); [wp_step; exact H | apply wp_panic].
      * wp_step. exact H.
    + intros args w1 H1. apply wp_seq with (I := startsWith base).
      * apply applyAction_startsWith; [apply Hincl; left; reflexivity | exact H1].
      * intros [|] w2 H2; [wp_step; exact H2 | apply IH; assumption].
Qed.

Lemma specialLoop_startsWith inLines acc w :
  startsWith base w ->
  wp (specialLoop env inLines acc) (fun _ w' => startsWith base w') w.
Proof.
  revert acc w. induction inLines as [|line following IH]; intros acc w H; simpl.
  - wp_step. exact H.
  - destruct (isPlainLine line); [apply IH; exact H|].
    apply wp_seq with (I := startsWith base).
    + apply runCommands_startsWith; [apply incl_refl | exact H].
    + intros [|] w1 H1; [wp_step; exact H1 | apply IH; exact H1].
Qed.

Lemma evalInput_startsWith input w :
  startsWith base w ->
  wp (evalInput env input) (fun _ w' => startsWith base w') w.
Proof.
  intro H. unfold evalInput. wp_step. wp_step.
  pose proof (startsWith_length H) as Hlen.
  apply wp_seq with (I := startsWith base).
  - apply separateEvalStmt_startsWith. exact H.
  - intros [e|] w1 H1; [wp_step; exact H1|].
    apply wp_seq with (I := startsWith base).
    + apply quickfix_keeps. exact H1.
    + intros ? w2 H2. apply runAndFinish_startsWith; assumption.
Qed.

Lemma afterCheckpoint_startsWith input w :
  startsWith base w ->
  wp (storeMainBody ;;;
      lines <- specialLoop env (Strings.Split input "010") [] ;;
      match lines with
      | None => ret ("", "", Some ErrQuit)
      | Some nonImportLines =>
          let input' := Strings.Join nonImportLines Strings.newline in
          if (String.length input' =? 0)%nat then
            doQuickFix env ;;; ret ("", "", None)
          else evalInput env input'
      end)
     (fun _ w' => startsWith base w') w.
Proof.
  intro H. apply wp_seq with (I := startsWith base).
  - unfold storeMainBody. wp_step. wp_step. wp_step. exact H.
  - intros ? w1 H1. apply wp_seq with (I := startsWith base).
    + apply specialLoop_startsWith. exact H1.
    + intros [ls|] w2 H2; [|wp_step; exact H2].
      cbv zeta. destruct (_ =? 0)%nat.
      * apply wp_seq with (I := startsWith base).
        -- apply quickfix_keeps. exact H2.
        -- intros ? w3 H3. wp_step. exact H3.
      * apply evalInput_startsWith. exact H2.
Qed.

End EvalFrames.

(** The whole of [Eval], for an environment whose quick fix and command
    actions keep prefixes of the body: whatever way [Eval] returns, the
    statements that were in the body at the checkpoint are still its
    first statements. *)
Theorem Eval_keeps_checkpoint_prefix (env : Env) :
  keepsPrefix (doQuickFix env) ->
  (forall c arg, In c (commands env) -> keepsPrefix (action c arg)) ->
  forall input w wc r w',
    clearQuickFix env w = Done (tt, wc) ->
    Eval env input w = Done (r, w') ->
    firstn (slen (mainBody (session wc))) (elems (mainBody (session w')))
    = elems (mainBody (session wc)).
Proof.
  intros Hq Hc input w wc r w' Hclear HEval.
  assert (Hstart : startsWith (elems (mainBody (session wc))) wc)
    by (exists []; rewrite app_nil_r; reflexivity).
  pose proof (@afterCheckpoint_startsWith env Hq Hc _ input wc Hstart) as Hwp.
  unfold Eval in HEval. unfold bind at 1 in HEval. rewrite Hclear in HEval.
  destruct (wp_done _ _ _ Hwp HEval) as [tail Htail].
  unfold slen. rewrite Htail, firstn_app, Nat.sub_diag, firstn_O, app_nil_r.
  apply firstn_all.
Qed.

(** ** evalExpr *)

(** C5.  When the parser accepts the line as an expression, [evalExpr]
    returns that expression without error and the body grows by exactly
    one node, the expression statement [__gophernotes(expr)]; nothing
    else in the session changes.  In [separateEvalStmt], a line that is
    read while no block is pending (the counter is zero and no line is
    buffered) is handled by this call alone: the loop goes on with its
    variables unchanged. *)
Theorem evalExpr_appends_one_print_call (env : Env) (line : string) (expr : Expr) (w : World) :
  parser_ParseExpr env line = inl expr ->
  exists w',
    evalExpr env line w = Done (inl expr, w')
    /\ elems (mainBody (session w'))
       = elems (mainBody (session w))
         ++ [ExprStmt (CallExpr (Ident "__gophernotes") [expr])]
    /\ session w' = setBody (session w) (mainBody (session w'))
    /\ history w' = history w ++ [EvParseExpr line]
    /\ (forall st, bracketCount st = 0%Z -> stmtLines st = [] ->
                   sepLine env st line w = Done (inl st, w')).
Proof.
  intro H.
  assert (E : exists w', evalExpr env line w = Done (inl expr, w')
                /\ elems (mainBody (session w'))
                   = elems (mainBody (session w)) ++ [printCall [expr]]
                /\ session w' = setBody (session w) (mainBody (session w'))
                /\ history w' = history w ++ [EvParseExpr line]).
  { unfold evalExpr, bind, call, appendStatements, getSession, putSession, ret.
    rewrite H. simpl. eexists. split; [reflexivity|]. simpl.
    rewrite elems_appendSlice. repeat split. }
  destruct E as [w' [E1 [E2 [E3 E4]]]]. exists w'.
  repeat split; try assumption.
  intros st Hb Hl. unfold sepLine. rewrite Hb, Hl. simpl andb. cbv iota.
  unfold bind. rewrite E1. reflexivity.
Qed.

Lemma evalExpr_appends_one_print_call_witness :
  Demo.ParseExpr "y" = inl (Ident "y")
  /\ exists w',
       evalExpr (Demo.env (Demo.success "")) "y" Demo.world0 = Done (inl (Ident "y"), w')
       /\ elems (mainBody (session w'))
          = [] ++ [ExprStmt (CallExpr (Ident "__gophernotes") [Ident "y"])]
       /\ session w' = setBody Demo.session0 (mainBody (session w'))
       /\ history w' = [] ++ [EvParseExpr "y"]
       /\ (forall st, bracketCount st = 0%Z -> stmtLines st = [] ->
                      sepLine (Demo.env (Demo.success "")) st "y" Demo.world0
                      = Done (inl st, w')).
Proof.
  split; [reflexivity|].
  apply (@evalExpr_appends_one_print_call (Demo.env (Demo.success "")) "y"
           (Ident "y") Demo.world0).
  reflexivity.
Defined.

(** ** evalStmt and the echo of the last assignment *)

Lemma printedLhs_spec (lhs : list Expr) (v : Expr) :
  In v (printedLhs lhs) <-> In v lhs /\ isNamedIdent v "_" = false.
Proof.
  unfold printedLhs. rewrite filter_In. rewrite negb_true_iff. reflexivity.
Qed.

(** C6 as stated fails on [_ = 1]: every left-hand side is blank and no
    printer call is appended. *)
Lemma echo_counterexample :
  ~ echoes_always (Demo.env (Demo.success "")) "_ = 1" Demo.world0.
Proof.
  intro H.
  destruct (H [AssignStmt [Ident "_"] "=" [BasicLit "1"]] [Ident "_"] "="
              [BasicLit "1"] eq_refl eq_refl) as [w' [E1 E2]].
  vm_compute in E1. injection E1 as <-. vm_compute in E2. discriminate.
Qed.

(** C6, amended.  When the synthetic file parses to [stmts], [stmts] is
    not empty and its last statement is an assignment, [evalStmt] with
    [noPrint = false] appends [stmts] and then, if at least one
    left-hand side is not the blank identifier, exactly one call
    [__gophernotes(vs...)] where [vs] are the left-hand sides that are not
    blank, in order; when all of them are blank it appends [stmts] only.
    With [noPrint = true] it appends [stmts] only. *)
Theorem evalStmt_echoes_last_assignment (env : Env) (input : string)
    (stmts : list Stmt) (lhs : list Expr) (tok : string) (rhs : list Expr) (w : World) :
  parser_ParseFile env "stmt.go" (stmtSource input) = mkParsedFile (Some stmts) None ->
  stmts <> [] ->
  last stmts NilStmt = AssignStmt lhs tok rhs ->
  (exists w',
     evalStmt env input false w = Done (None, w')
     /\ elems (mainBody (session w'))
        = elems (mainBody (session w)) ++ stmts
          ++ match printedLhs lhs with
             | [] => []
             | vs => [ExprStmt (CallExpr (Ident "__gophernotes") vs)]
             end)
  /\ (exists w',
        evalStmt env input true w = Done (None, w')
        /\ elems (mainBody (session w')) = elems (mainBody (session w)) ++ stmts)
  /\ (forall v, In v (printedLhs lhs) <-> In v lhs /\ isNamedIdent v "_" = false).
Proof.
  intros Hp Hne Hlast.
  assert (Hpos : (0 <? length stmts)%nat = true)
    by (destruct stmts; [congruence | reflexivity]).
  split; [|split; [|apply printedLhs_spec]].
  - unfold evalStmt, bind, call, appendStatements, getSession, putSession, ret.
    rewrite Hp. simpl. eexists. split; [reflexivity|]. simpl.
    rewrite elems_appendSlice. f_equal.
    unfold withLastValues. rewrite Hpos, Hlast. simpl.
    destruct (printedLhs lhs); simpl; [rewrite app_nil_r|]; reflexivity.
  - unfold evalStmt, bind, call, appendStatements, getSession, putSession, ret.
    rewrite Hp. simpl. eexists. split; [reflexivity|]. simpl.
    rewrite elems_appendSlice. f_equal.
    unfold withLastValues. rewrite Hpos. reflexivity.
Qed.

Lemma evalStmt_echoes_last_assignment_witness :
  exists w',
    evalStmt (Demo.env (Demo.success "")) "a, _ := g()" false Demo.world0 = Done (None, w')
    /\ elems (mainBody (session w'))
       = [AssignStmt [Ident "a"; Ident "_"] ":=" [CallExpr (Ident "g") []];
          ExprStmt (CallExpr (Ident "__gophernotes") [Ident "a"])].
Proof.
  refine (proj1 (@evalStmt_echoes_last_assignment (Demo.env (Demo.success ""))
            "a, _ := g()"
            [AssignStmt [Ident "a"; Ident "_"] ":=" [CallExpr (Ident "g") []]]
            [Ident "a"; Ident "_"] ":=" [CallExpr (Ident "g") []] Demo.world0
            _ _ _)).
  - reflexivity.
  - discriminate.
  - reflexivity.
Defined.

(** ** Run and the argument list of [go run] *)

(** C7, amended.  When the session file has been created and printed,
    [Run] starts the tool [go] with the argument list [run], then the
    paths of the auxiliary files in the order they were registered, then
    the path of the session file as the last argument; what the tool
    answers is what [Run] returns. *)
Theorem Run_argument_list (env : Env) (w : World) :
  let s := session w in
  let h1 := history w ++ [EvCreate (FilePath s)] in
  let h2 := h1 ++ [EvFprint (FilePath s) (Imports s) (elems (mainBody s))] in
  let args := "run" :: ExtraFilePaths s ++ [FilePath s] in
  os_Create env (history w) (FilePath s) = None ->
  printer_Fprint env h1 (FilePath s) (Imports s) (elems (mainBody s)) = None ->
  Run env w = Done (exec_Output env h2 "go" args,
                    mkWorld s (h2 ++ [EvExec "go" args])).
Proof.
  intros s h1 h2 args Hc Hp.
  unfold Run, goRun, goRunArgs, bind, call, getSession. simpl.
  fold s. rewrite Hc. simpl. fold h1. rewrite Hp. reflexivity.
Qed.

Lemma Run_argument_list_witness :
  Run (Demo.env (Demo.success "42")) Demo.worldAux
  = Done (("42", "", None),
          mkWorld Demo.sessionAux
            [EvCreate Demo.sessionPath;
             EvFprint Demo.sessionPath ["fmt"] [];
             EvExec "go" ["run"; "/tmp/s/gore_extarnal_1.go"; Demo.sessionPath]]).
Proof.
  apply (@Run_argument_list (Demo.env (Demo.success "42")) Demo.worldAux);
    reflexivity.
Defined.

(** C7 as stated puts the session file first; with one auxiliary file
    registered the tool is started with the auxiliary file first. *)
Lemma Run_argument_list_counterexample :
  exists r w',
    Run (Demo.env (Demo.success "42")) Demo.worldAux = Done (r, w')
    /\ In (EvExec "go" ["run"; "/tmp/s/gore_extarnal_1.go"; Demo.sessionPath])
          (history w')
    /\ ~ In (EvExec "go" ("run" :: Demo.sessionPath :: ExtraFilePaths Demo.sessionAux))
            (history w').
Proof.
  eexists. eexists. split; [vm_compute; reflexivity|]. split.
  - simpl. right. right. left. reflexivity.
  - simpl. intros [H|[H|[H|[]]]]; discriminate.
Qed.

(** ** The depth counter *)

Lemma closeAdjust_counterexample : ~ closes_unless_literal "for {}" 1.
Proof.
  unfold closes_unless_literal. intros [_ H].
  assert (E : closeAdjust "for {}" 1 = 0%Z) by (apply H; split; [reflexivity | discriminate]).
  vm_compute in E. discriminate.
Qed.

(** C8, amended.  On a line that is not empty the counter goes down by
    one exactly when the last byte is a closing brace and the line does
    not end with the two bytes of an empty block; otherwise it is left
    as it is.  So a longer line that ends with an empty block is not
    counted as closing. *)
Theorem closeAdjust_spec (line : string) (bracketCount : Z) :
  line <> "" ->
  (closeAdjust line bracketCount = (bracketCount - 1)%Z
   <-> (Strings.trailing line = Some "}"%char /\ Strings.HasSuffix line "{}" = false))
  /\ (closeAdjust line bracketCount = bracketCount
      <-> ~ (Strings.trailing line = Some "}"%char /\ Strings.HasSuffix line "{}" = false)).
Proof.
  intro Hne. unfold closeAdjust.
  pose proof (@endsWith_trailing line "}"%char Hne) as Ht.
  destruct (endsWith line "}") eqn:E.
  - assert (T : Strings.trailing line = Some "}"%char) by (apply Ht; reflexivity).
    destruct (Strings.HasSuffix line "{}") eqn:S; simpl.
    + split; split; try lia; intuition congruence.
    + split; split; try lia; intuition congruence.
  - assert (T : Strings.trailing line <> Some "}"%char)
      by (intro T; apply Ht in T; congruence).
    split; split; try lia; intuition congruence.
Qed.

Lemma closeAdjust_spec_witness :
  closeAdjust "}" 1 = 0%Z /\ closeAdjust "x := T{}" 1 = 1%Z.
Proof.
  split.
  - apply (proj1 (@closeAdjust_spec "}" 1 ltac:(discriminate))).
    split; reflexivity.
  - apply (proj2 (@closeAdjust_spec "x := T{}" 1 ltac:(discriminate))).
    intros [_ H]. vm_compute in H. discriminate.
Defined.

(** ** separateEvalStmt: when the accumulated block is parsed *)

Lemma bind_done {A B} (m : M A) (k : A -> M B) w b w2 :
  bind m k w = Done (b, w2) ->
  exists a w1, m w = Done (a, w1) /\ k a w1 = Done (b, w2).
Proof.
  unfold bind. destruct (m w) as [[a w1]|why]; [|discriminate].
  intro H. exists a, w1. split; [reflexivity | exact H].
Qed.

Lemma skipn_length_app {A} (l1 l2 : list A) : skipn (length l1) (l1 ++ l2) = l2.
Proof. induction l1; simpl; auto. Qed.

Lemma evalExpr_history env line w r w' :
  evalExpr env line w = Done (r, w') ->
  history w' = history w ++ [EvParseExpr line].
Proof.
  unfold evalExpr, bind, call, appendStatements, getSession, putSession, ret.
  destruct (parser_ParseExpr env line); simpl; intro H; injection H as _ <-;
    reflexivity.
Qed.

Lemma extends_refl w : extends (history w) w.
Proof. exists []. rewrite app_nil_r. reflexivity. Qed.

Lemma extends_call h e w :
  extends h w -> extends h (mkWorld (session w) (history w ++ [e])).
Proof.
  intros [l H]. exists (l ++ [e]). simpl. rewrite H, app_assoc. reflexivity.
Qed.

Lemma extends_put h s w : extends h w -> extends h (mkWorld s (history w)).
Proof. exact (fun H => H). Qed.

Lemma importFile_extends env h src w :
  extends h w -> wp (importFile env src) (fun _ w' => extends h w') w.
Proof.
  intro H. unfold importFile. wp_step. wp_step. wp_step. wp_step.
  apply (extends_call (EvTempFile (filepath_Dir env (FilePath (session w)))
                                  "gore_extarnal_")) in H.
  destruct (ioutil_TempFile env _ _ _) as [tmp|err]; [|wp_step; exact H].
  wp_step. wp_step.
  match goal with |- context [EvParseFile ?a ?b] =>
    apply (extends_call (EvParseFile a b)) in H end.
  destruct (parser_ParseExt env _ _) as [f0|err]; [|wp_step; exact H].
  destruct (removeMain (Decls f0)) as [ds removed].
  wp_step. wp_step.
  match goal with |- context [EvCreate ?a] =>
    apply (extends_call (EvCreate a)) in H end.
  destruct (os_Create env _ _); [wp_step; exact H|].
  wp_step. wp_step.
  match goal with |- context [EvFprintExt ?a ?b] =>
    apply (extends_call (EvFprintExt a b)) in H end.
  destruct (printer_FprintExt env _ _ _); [wp_step; exact H|].
  repeat wp_step. exact H.
Qed.

Lemma evalStmtFallback_extends env h input w :
  extends h w -> wp (evalStmtFallback env input) (fun _ w' => extends h w') w.
Proof.
  intro H. unfold evalStmtFallback. wp_step. wp_step. wp_step. wp_step.
  match goal with |- context [EvCreate ?a] =>
    apply (extends_call (EvCreate a)) in H end.
  destruct (os_Create env _ _); [wp_step; exact H|].
  wp_step. wp_step.
  match goal with |- context [EvWrite ?a ?b] =>
    apply (extends_call (EvWrite a b)) in H end.
  destruct (file_Write env _ _ _); [wp_step; exact H|].
  wp_step. wp_step.
  match goal with |- context [EvExec ?a ?b] =>
    apply (extends_call (EvExec a b)) in H end.
  destruct (snd (exec_Combined env _ _ _)); [wp_step; exact H|].
  wp_step. wp_step.
  match goal with |- context [EvReadFile ?a] =>
    apply (extends_call (EvReadFile a)) in H end.
  destruct (ioutil_ReadFile env _ _) as [fp|err]; [|wp_step; exact H].
  wp_step. eapply wp_mono; [|apply importFile_extends; exact H].
  intros ierr w' H'. cbv beta.
  destruct ierr as [[]|]; wp_step; exact H'.
Qed.

(** Whatever [evalStmt] does next, it has asked the parser for the
    synthetic file first. *)
Lemma evalStmt_parses_first env input noPrint w r w' :
  evalStmt env input noPrint w = Done (r, w') ->
  extends (history w ++ [EvParseFile "stmt.go" (stmtSource input)]) w'.
Proof.
  set (h := history w ++ [EvParseFile "stmt.go" (stmtSource input)]).
  intro E.
  refine (@wp_done _ _ (fun _ w1 => extends h w1) w r w' _ E).
  unfold evalStmt. wp_step. wp_step.
  set (pf := parser_ParseFile env "stmt.go" (stmtSource input)).
  apply wp_seq with (I := extends h).
  - destruct (pf_err pf).
    + apply evalStmtFallback_extends. apply extends_refl.
    + wp_step. apply (extends_refl (mkWorld (session w) h)).
  - intros [err|] w1 H1; [wp_step; exact H1|].
    destruct (pf_F pf) as [stmts|]; [|apply wp_panic].
    unfold appendStatements. repeat wp_step. exact H1.
Qed.

Lemma sepLine_parses_at_depth_zero env st line w r w' :
  sepLine env st line w = Done (r, w') ->
  (exists src, In (EvParseFile "stmt.go" src)
                  (skipn (length (history w)) (history w'))) ->
  depthAfter st line = 0%Z.
Proof.
  unfold sepLine, depthAfter. intros H [src Hin].
  apply bind_done in H. destruct H as [tried [w1 [Htry Hrest]]].
  destruct ((bracketCount st =? 0)%Z && (length (stmtLines st) =? 0)%nat).
  - apply bind_done in Htry. destruct Htry as [e [w0 [He Hk]]].
    pose proof (evalExpr_history _ _ _ He) as Hh.
    destruct e as [expr|err]; unfold ret in Hk; injection Hk as <- <-.
    + unfold ret in Hrest. injection Hrest as _ <-.
      rewrite Hh, skipn_length_app in Hin. simpl in Hin.
      destruct Hin as [Hin|[]]. discriminate.
    + cbv zeta in Hrest.
      destruct ((_ =? 0)%Z && _) eqn:C.
      * apply andb_true_iff in C. destruct C as [C _].
        apply Z.eqb_eq in C. exact C.
      * unfold ret in Hrest. injection Hrest as _ <-.
        rewrite Hh, skipn_length_app in Hin. simpl in Hin.
        destruct Hin as [Hin|[]]. discriminate.
  - unfold ret in Htry. injection Htry as <- <-. cbv zeta in Hrest.
    destruct ((_ =? 0)%Z && _) eqn:C.
    + apply andb_true_iff in C. destruct C as [C _].
      apply Z.eqb_eq in C. exact C.
    + unfold ret in Hrest. injection Hrest as _ <-.
      rewrite skipn_all in Hin. destruct Hin.
Qed.

Lemma sepFlush_parses_at_any_depth env st w r w' :
  stmtLines st <> [] ->
  sepFlush env st w = Done (r, w') ->
  In (EvParseFile "stmt.go"
        (stmtSource (Strings.Join (stmtLines st) Strings.newline)))
     (history w').
Proof.
  intros Hne H. unfold sepFlush in H.
  destruct (stmtLines st) as [|l ls] eqn:E; [congruence|].
  simpl in H. destruct (evalStmt_parses_first _ _ _ _ H) as [more Hm].
  rewrite Hm. apply in_or_app. left. apply in_or_app. right. left. reflexivity.
Qed.

(** The block does not parse and [goimports] fails on the proxy file:
    [evalStmt] returns the output of [goimports] as an error. *)
Lemma evalStmt_goimports_failure env input noPrint w e b e' :
  let proxy := (filepath_Dir env (FilePath (session w)) ++ "/func_proxy.go")%string in
  let content := (appendForImport ++ input)%string in
  let h1 := history w ++ [EvParseFile "stmt.go" (stmtSource input)] in
  let h2 := h1 ++ [EvCreate proxy] in
  let h3 := h2 ++ [EvWrite proxy content] in
  pf_err (parser_ParseFile env "stmt.go" (stmtSource input)) = Some e ->
  os_Create env h1 proxy = None ->
  file_Write env h2 proxy content = None ->
  exec_Combined env h3 "goimports" ["-w"; proxy] = (b, Some e') ->
  evalStmt env input noPrint w
  = Done (Some (ErrorString b),
          mkWorld (session w) (h3 ++ [EvExec "goimports" ["-w"; proxy]])).
Proof.
  intros proxy content h1 h2 h3 Hp Hc Hw Hg.
  subst h3 h2 h1 content proxy.
  destruct w as [s h]. cbn [session history] in *.
  cbv [evalStmt evalStmtFallback bind call getSession ret session history].
  rewrite Hp. cbv beta iota. rewrite Hc. cbv beta iota.
  rewrite Hw. cbv beta iota. rewrite Hg. reflexivity.
Qed.

(** The block does not parse, [goimports] accepts the proxy file and
    [importFile] then fails with a [scanner.ErrorList]: [evalStmt]
    returns [ErrContinue]. *)
Lemma evalStmt_continue env input noPrint w e b functproxy msg w' :
  let proxy := (filepath_Dir env (FilePath (session w)) ++ "/func_proxy.go")%string in
  let content := (appendForImport ++ input)%string in
  let h1 := history w ++ [EvParseFile "stmt.go" (stmtSource input)] in
  let h2 := h1 ++ [EvCreate proxy] in
  let h3 := h2 ++ [EvWrite proxy content] in
  let h4 := h3 ++ [EvExec "goimports" ["-w"; proxy]] in
  let h5 := h4 ++ [EvReadFile proxy] in
  pf_err (parser_ParseFile env "stmt.go" (stmtSource input)) = Some e ->
  os_Create env h1 proxy = None ->
  file_Write env h2 proxy content = None ->
  exec_Combined env h3 "goimports" ["-w"; proxy] = (b, None) ->
  ioutil_ReadFile env h4 proxy = inl functproxy ->
  importFile env functproxy (mkWorld (session w) h5)
  = Done (Some (ScannerErrorList msg), w') ->
  evalStmt env input noPrint w = Done (Some ErrContinue, w').
Proof.
  intros proxy content h1 h2 h3 h4 h5 Hp Hc Hw Hg Hr Hi.
  subst h5 h4 h3 h2 h1 content proxy.
  destruct w as [s h]. cbn [session history] in *.
  cbv [evalStmt evalStmtFallback bind call getSession ret session history].
  rewrite Hp. cbv beta iota. rewrite Hc. cbv beta iota.
  rewrite Hw. cbv beta iota. rewrite Hg. cbv beta iota. cbv [snd].
  rewrite Hr. cbv beta iota. rewrite Hi. reflexivity.
Qed.

(** The two lines [if true {] and [f()] leave the counter at 2; the
    pending block is parsed all the same, and the error is the output of
    [goimports]. *)
Lemma continues_when_open_counterexample :
  ~ continues_when_open (Demo.env (Demo.success ""))
      ("if true {" ++ Strings.newline ++ "f()") Demo.world0.
Proof.
  intro H.
  assert (E : ErrorString "func_proxy.go:4:1: expected declaration" = ErrContinue).
  { eapply (H (mkSep ["if true {"; "f()"] 2 2)
              (mkWorld Demo.session0 [EvParseExpr "if true {"])).
    - reflexivity.
    - reflexivity.
    - vm_compute. reflexivity. }
  discriminate.
Qed.

(** C4, amended.  (1) Inside the loop over the lines, the accumulated
    block is handed to the parser only in an iteration that leaves the
    counter at zero.  (2) After the last line the pending lines, if any,
    are parsed once, whatever the counter says.  (3) When that block does
    not parse and [goimports] rejects the proxy file, the error returned
    carries the output of [goimports]; (4) [ErrContinue] is returned when
    [goimports] accepts the file and [importFile] fails with a
    [scanner.ErrorList]. *)
Theorem block_parse_and_continuation (env : Env) :
  (forall st line w r w',
      sepLine env st line w = Done (r, w') ->
      (exists src, In (EvParseFile "stmt.go" src)
                      (skipn (length (history w)) (history w'))) ->
      depthAfter st line = 0%Z)
  /\ (forall input w st w1,
        sepLoop env (Strings.Split input "010") (mkSep [] 0 0) w = Done (inl st, w1) ->
        stmtLines st <> [] ->
        let block := Strings.Join (stmtLines st) Strings.newline in
        separateEvalStmt env input w = evalStmt env block (0 <? exprCount st)%Z w1
        /\ forall r w', separateEvalStmt env input w = Done (r, w') ->
                        In (EvParseFile "stmt.go" (stmtSource block)) (history w'))
  /\ (forall block noPrint w e b e',
        let proxy := (filepath_Dir env (FilePath (session w)) ++ "/func_proxy.go")%string in
        let content := (appendForImport ++ block)%string in
        let h1 := history w ++ [EvParseFile "stmt.go" (stmtSource block)] in
        let h2 := h1 ++ [EvCreate proxy] in
        let h3 := h2 ++ [EvWrite proxy content] in
        pf_err (parser_ParseFile env "stmt.go" (stmtSource block)) = Some e ->
        os_Create env h1 proxy = None ->
        file_Write env h2 proxy content = None ->
        exec_Combined env h3 "goimports" ["-w"; proxy] = (b, Some e') ->
        exists w', evalStmt env block noPrint w = Done (Some (ErrorString b), w'))
  /\ (forall block noPrint w e b functproxy msg w',
        let proxy := (filepath_Dir env (FilePath (session w)) ++ "/func_proxy.go")%string in
        let content := (appendForImport ++ block)%string in
        let h1 := history w ++ [EvParseFile "stmt.go" (stmtSource block)] in
        let h2 := h1 ++ [EvCreate proxy] in
        let h3 := h2 ++ [EvWrite proxy content] in
        let h4 := h3 ++ [EvExec "goimports" ["-w"; proxy]] in
        let h5 := h4 ++ [EvReadFile proxy] in
        pf_err (parser_ParseFile env "stmt.go" (stmtSource block)) = Some e ->
        os_Create env h1 proxy = None ->
        file_Write env h2 proxy content = None ->
        exec_Combined env h3 "goimports" ["-w"; proxy] = (b, None) ->
        ioutil_ReadFile env h4 proxy = inl functproxy ->
        importFile env functproxy (mkWorld (session w) h5)
        = Done (Some (ScannerErrorList msg), w') ->
        evalStmt env block noPrint w = Done (Some ErrContinue, w')).
Proof.
  split; [|split; [|split]].
  - intros st line w r w'. apply sepLine_parses_at_depth_zero.
  - intros input w st w1 Hloop Hne block.
    assert (E : separateEvalStmt env input w
                = evalStmt env block (0 <? exprCount st)%Z w1).
    { unfold separateEvalStmt, bind. rewrite Hloop. unfold sepFlush.
      destruct (stmtLines st) eqn:El; [congruence|]. reflexivity. }
    split; [exact E|].
    intros r w' H. rewrite E in H.
    destruct (evalStmt_parses_first _ _ _ _ H) as [more Hm].
    rewrite Hm. apply in_or_app. left. apply in_or_app. right. left. reflexivity.
  - intros block noPrint w e b e' proxy content h1 h2 h3 Hp Hc Hw Hg.
    eexists. eapply evalStmt_goimports_failure; eassumption.
  - intros block noPrint w e b functproxy msg w' proxy content h1 h2 h3 h4 h5
           Hp Hc Hw Hg Hr Hi.
    eapply evalStmt_continue; eassumption.
Qed.

Lemma block_parse_and_continuation_witness :
  depthAfter (mkSep [] 0 0) "x := 5" = 0%Z
  /\ (exists w', evalStmt (Demo.env (Demo.success "")) "if true {" true Demo.world0
                 = Done (Some (ErrorString "func_proxy.go:4:1: expected declaration"), w')).
Proof.
  pose (E := Demo.env (Demo.success "")).
  destruct (block_parse_and_continuation E) as [P1 [_ [P3 _]]].
  split.
  - apply (P1 (mkSep [] 0 0) "x := 5" Demo.world0
              (inl (mkSep [] 0 0))
              (mkWorld (setBody Demo.session0
                          (mkSlice [AssignStmt [Ident "x"] ":=" [BasicLit "5"]] []))
                       [EvParseExpr "x := 5";
                        EvParseFile "stmt.go" "package P; func F() { x := 5 }"])).
    + reflexivity.
    + exists "package P; func F() { x := 5 }". simpl. right. left. reflexivity.
  - apply (P3 "if true {" true Demo.world0
              (ScannerErrorList "stmt.go: syntax error")
              "func_proxy.go:4:1: expected declaration"
              (ExitError (Some 2%Z) "exit status 2")); reflexivity.
Defined.

(** ** Eval after the run: exit status 2 *)

Lemma wp_any {A} (m : M A) (Q : A -> World -> Prop) w :
  (forall a w', Q a w') -> wp m Q w.
Proof. intro H. unfold wp. destruct (m w) as [[a w']|]; auto. Qed.

(** [cleanup] hands the output and stderr through, and returns a nil
    error only when stderr is empty and the run error was nil. *)
Lemma cleanup_result env input prior out stderr runErr w res w' :
  cleanup env input prior out stderr runErr w = Done (res, w') ->
  fst (fst res) = out /\ snd (fst res) = stderr
  /\ (snd res = None -> stderr = "" /\ runErr = None).
Proof.
  intro E.
  refine (@wp_done _ _ (fun r _ => fst (fst r) = out /\ snd (fst r) = stderr
                          /\ (snd r = None -> stderr = "" /\ runErr = None))
            w res w' _ E).
  unfold cleanup. wp_step. apply wp_any. intros _ w1.
  wp_step. apply wp_any. intros cerr w2.
  destruct cerr; [wp_step; simpl; intuition discriminate|].
  wp_step. wp_step. wp_step. wp_step.
  destruct (os_Create env _ _); [wp_step; simpl; intuition discriminate|].
  wp_step. wp_step.
  destruct (printer_Fprint env _ _ _ _); [wp_step; simpl; intuition discriminate|].
  destruct (String.eqb stderr "") eqn:S; simpl; wp_step; simpl.
  - apply String.eqb_eq in S. intuition.
  - intuition discriminate.
Qed.





(** ** Eval on fragments that fail *)

(** C2 at a failing input.  The body is empty; the fragment [f()] does
    not compile ([f] is not defined) and [go run] exits with status 2.
    [restoreMainBody] empties the body, and the cleanup pass then reads
    the fragment again and appends the call [f()]: the body has one
    statement when [Eval] returns. *)
Theorem Eval_compile_failure_keeps_fragment :
  exists res w',
    Eval (Demo.env (Demo.compileFailure Demo.undefinedF)) "f()" Demo.world0
    = Done (res, w')
    /\ In (EvExec "go" ["run"; Demo.sessionPath]) (history w')
    /\ elems (mainBody (session Demo.world0)) = []
    /\ elems (mainBody (session w')) = [ExprStmt (CallExpr (Ident "f") [])]
    /\ In (EvFprint Demo.sessionPath ["fmt"] [ExprStmt (CallExpr (Ident "f") [])])
          (history w').
Proof.
  eexists. eexists. split; [vm_compute; reflexivity|].
  cbn [history session mainBody elems]. repeat split.
  - simpl. tauto.
  - simpl. tauto.
Qed.

(** A classification error ends [Eval] at once: nothing runs after
    [separateEvalStmt], and the session is left as [separateEvalStmt]
    left it. *)
Lemma evalInput_classification_error env input w e w' :
  separateEvalStmt env input w = Done (Some e, w') ->
  evalInput env input w = Done (("", error_Error e, Some e), w').
Proof.
  intro H. unfold evalInput.
  change (bind getSession ?k w) with (k (session w) w). cbv beta zeta.
  unfold bind. rewrite H. reflexivity.
Qed.

(** C3 at a failing input.  The first line, [1], is an expression and
    its printer call is appended; the second line, [func bad(], neither
    parses nor survives [goimports].  [Eval] returns that error without
    running [go], and the printer call of the first line is still in the
    body. *)
Theorem Eval_classification_error_keeps_nodes :
  exists w',
    Eval (Demo.env (Demo.success "")) ("1" ++ Strings.newline ++ "func bad(") Demo.world0
    = Done (("", "func_proxy.go:4:1: expected declaration",
             Some (ErrorString "func_proxy.go:4:1: expected declaration")), w')
    /\ (forall args, ~ In (EvExec "go" args) (history w'))
    /\ elems (mainBody (session Demo.world0)) = []
    /\ elems (mainBody (session w'))
       = [ExprStmt (CallExpr (Ident "__gophernotes") [BasicLit "1"])].
Proof.
  eexists. split; [vm_compute; reflexivity|].
  cbn [history session mainBody elems]. repeat split.
  intros args H. simpl in H.
  repeat (destruct H as [H|H]; [discriminate|]). exact H.
Qed.

(** ** The environment of the examples satisfies the frame conditions *)

Lemma Demo_quickfix_keeps runs : keepsPrefix (doQuickFix (Demo.env runs)).
Proof. intros base w H. exact H. Qed.

Lemma Demo_actions_keep runs c arg :
  In c (commands (Demo.env runs)) -> keepsPrefix (action c arg).
Proof.
  intros [<-|[<-|[]]] base w H; exact H.
Qed.

Lemma Eval_keeps_checkpoint_prefix_witness :
  exists r w',
    Eval (Demo.env (Demo.compileFailure Demo.undefinedY)) "y" Demo.world1 = Done (r, w')
    /\ firstn 1 (elems (mainBody (session w')))
       = [AssignStmt [Ident "x"] ":=" [BasicLit "5"]].
Proof.
  eexists. eexists. split; [vm_compute; reflexivity|].
  eapply (@Eval_keeps_checkpoint_prefix (Demo.env (Demo.compileFailure Demo.undefinedY))
           (Demo_quickfix_keeps _) (@Demo_actions_keep _) "y" Demo.world1 Demo.world1).
  - reflexivity.
  - vm_compute. reflexivity.
Defined.

(** ** separateEvalStmt never asks for the echo

    Lines that are still pending after the loop were each counted in
    [exprCount], so the final [evalStmt] runs with [noPrint = true], as
    the one inside the loop does. *)




(** ** Runs of the model *)

Example split_lines :
  Strings.Split ("a" ++ Strings.newline ++ "" ++ Strings.newline ++ "b{")%string "010"
  = ["a"; ""; "b{"].
Proof. reflexivity. Qed.

Example strings_examples :
  Strings.LastIndex "if x {" "{" = 5%Z /\ Strings.LastIndex "" "}" = (-1)%Z
  /\ Strings.LastIndex "{a}{" "{" = 3%Z /\ Strings.LastIndex "abc" "}" = (-1)%Z
  /\ Strings.HasSuffix "for {}" "{}" = true /\ Strings.TrimSpace "  a b  " = "a b"
  /\ Strings.TrimPrefix ":import fmt" ":import" = " fmt"
  /\ Strings.Contains "a)b" ")" = true /\ Strings.Contains "" "" = true.
Proof. repeat split; reflexivity. Qed.

(** The empty line passes both brace tests; at the top level it leaves
    the counter at one. *)
Example empty_line_depth :
  closeAdjust "" 0 = (-1)%Z /\ openAdjust "" 0 = 1%Z
  /\ depthAfter (mkSep [] 0 0) "" = 1%Z.
Proof. repeat split; reflexivity. Qed.

(** A line that opens a block at the top level is counted twice. *)
Example opening_line_depth : depthAfter (mkSep [] 0 0) "if true {" = 2%Z.
Proof. reflexivity. Qed.

(** A successful evaluation of [x := 5]: the assignment is committed,
    no printer call follows it. *)
Example Eval_assignment :
  exists w',
    Eval (Demo.env (Demo.success "")) "x := 5" Demo.world0 = Done (("", "", None), w')
    /\ elems (mainBody (session w')) = [AssignStmt [Ident "x"] ":=" [BasicLit "5"]].
Proof. eexists. split; [vm_compute; reflexivity | reflexivity]. Qed.

(** The command [:quit] ends the evaluation with [ErrQuit]. *)
Example Eval_quit :
  Eval (Demo.env (Demo.success "")) (":quit" ++ Strings.newline ++ "f()")%string Demo.world0
  = Done (("", "", Some ErrQuit), Demo.world0).
Proof. reflexivity. Qed.

(* ================================================================== *)
(** * Further properties of repl.go *)

(** ** Lines *)

Lemma Split_not_nil (s : string) (sep : ascii) : Strings.Split s sep <> [].
Proof.
  destruct s as [|c s]; simpl; [discriminate|].
  destruct (Ascii.eqb c sep); [discriminate|].
  destruct (Strings.Split s sep); discriminate.
Qed.

Lemma concat_cons_String (sep : string) (c : ascii) (l : string) (ls : list string) :
  String.concat sep (String c l :: ls) = String c (String.concat sep (l :: ls)).
Proof. destruct ls; reflexivity. Qed.

(** Joining the lines of a fragment gives the fragment back. *)
Lemma Join_Split (s : string) (sep : ascii) :
  Strings.Join (Strings.Split s sep) (String sep "") = s.
Proof.
  unfold Strings.Join. induction s as [|c s IH]; [reflexivity|].
  simpl Strings.Split. destruct (Ascii.eqb c sep) eqn:E.
  - apply Ascii.eqb_eq in E. subst c.
    pose proof (Split_not_nil s sep) as Hne.
    destruct (Strings.Split s sep) as [|l ls]; [congruence|].
    change (String.concat (String sep "") ("" :: l :: ls))
      with (String sep (String.concat (String sep "") (l :: ls))).
    rewrite IH. reflexivity.
  - pose proof (Split_not_nil s sep) as Hne.
    destruct (Strings.Split s sep) as [|l ls]; [congruence|].
    rewrite concat_cons_String, IH. reflexivity.
Qed.

(** ** The depth counter, both adjustments *)

Lemma trailing_nonempty (line : string) (c : ascii) :
  Strings.trailing line = Some c -> line <> "".
Proof. intros H E. subst line. discriminate. Qed.

Lemma endsWith_false (line : string) (c d : ascii) :
  Strings.trailing line = Some d -> d <> c -> endsWith line (String c "") = false.
Proof.
  intros Ht Hd. destruct (endsWith line (String c "")) eqn:E; [|reflexivity].
  apply (endsWith_trailing c (trailing_nonempty Ht)) in E. congruence.
Qed.

(** X14.  The net effect of lines 451-458 on the counter, for every
    line: plus one when the last byte opens a brace; minus one when it
    closes one and the line does not end with an empty block; nothing
    otherwise.  The empty line is first counted down and then up. *)
Theorem bracket_net_effect (line : string) (bracketCount : Z) :
  openAdjust line (closeAdjust line bracketCount)
  = (bracketCount
     + match Strings.trailing line with
       | Some c =>
           if Ascii.eqb c "{" then 1
           else if Ascii.eqb c "}" then
                  (if Strings.HasSuffix line "{}" then 0 else -1)
                else 0
       | None => 0
       end)%Z
  /\ (line = "" -> closeAdjust line bracketCount = (bracketCount - 1)%Z).
Proof.
  split.
  - destruct (Strings.trailing line) as [c|] eqn:T.
    + pose proof (trailing_nonempty T) as Hne.
      unfold openAdjust, closeAdjust.
      destruct (Ascii.eqb c "{") eqn:E1.
      * apply Ascii.eqb_eq in E1. subst c.
        rewrite (@endsWith_false line "}"%char _ T) by discriminate.
        replace (endsWith line "{") with true
          by (symmetry; apply (endsWith_trailing "{"%char Hne); exact T).
        reflexivity.
      * apply Ascii.eqb_neq in E1.
        rewrite (@endsWith_false line "{"%char _ T) by exact E1.
        destruct (Ascii.eqb c "}") eqn:E2.
        -- apply Ascii.eqb_eq in E2. subst c.
           replace (endsWith line "}") with true
             by (symmetry; apply (endsWith_trailing "}"%char Hne); exact T).
           destruct (Strings.HasSuffix line "{}"); simpl; lia.
        -- apply Ascii.eqb_neq in E2.
           rewrite (@endsWith_false line "}"%char _ T) by exact E2. lia.
    + assert (line = "") as ->.
      { destruct line as [|a l]; [reflexivity|]. exfalso.
        unfold Strings.trailing in T.
        change (String.length (String a l)) with (S (String.length l)) in T.
        cbv iota in T.
        destruct (get_last_some (String a l) (n := String.length l) eq_refl) as [x Hx].
        rewrite Hx in T. discriminate. }
      unfold openAdjust, closeAdjust.
      change (endsWith "" "}") with true. change (endsWith "" "{") with true.
      change (Strings.HasSuffix "" "{}") with false. cbv iota beta.
      change (negb false) with true. cbv iota. lia.
  - intros ->. reflexivity.
Qed.

(** X15.  A line that opens a block while nothing is pending is counted
    twice: the parser rejects it as an expression, line 443 counts the
    brace, and line 457 counts it again.  The line is buffered at depth
    two and no block is parsed. *)
Theorem top_level_brace_counted_twice (env : Env) (line : string) (err : error)
    (n : Z) (w : World) :
  parser_ParseExpr env line = inr err ->
  Strings.trailing line = Some "{"%char ->
  sepLine env (mkSep [] n 0) line w
  = Done (inl (mkSep [line] (n + 1) 2),
          mkWorld (session w) (history w ++ [EvParseExpr line])).
Proof.
  intros Hp Ht.
  pose proof (trailing_nonempty Ht) as Hne.
  assert (Ho : endsWith line "{" = true)
    by (apply (endsWith_trailing "{"%char Hne); exact Ht).
  assert (Hc : endsWith line "}" = false)
    by (apply (@endsWith_false line "}"%char _ Ht); discriminate).
  unfold sepLine. cbn [bracketCount stmtLines exprCount length].
  unfold evalExpr, bind, call, ret. rewrite Hp. cbv beta iota.
  unfold openAdjust, closeAdjust. rewrite Ho, Hc. reflexivity.
Qed.

Lemma top_level_brace_counted_twice_witness :
  sepLine (Demo.env (Demo.success "")) (mkSep [] 0 0) "if true {" Demo.world0
  = Done (inl (mkSep ["if true {"] (0 + 1) 2),
          mkWorld Demo.session0 ([] ++ [EvParseExpr "if true {"])).
Proof.
  apply (@top_level_brace_counted_twice (Demo.env (Demo.success "")) "if true {"
           (ScannerErrorList "expected operand") 0 Demo.world0); reflexivity.
Defined.

(** ** separateEvalStmt never echoes *)



(** ** The checkpoint *)

(** X2.  Store and restore are a round trip: when the body still starts
    with the statements it had at the checkpoint and [storedBodyLength]
    is their number, [restoreMainBody] returns and leaves exactly those
    statements in the body; the rest of the session and the history are
    untouched. *)
Theorem restoreMainBody_roundtrip (base : list Stmt) (w : World) :
  startsWith base w ->
  storedBodyLength (session w) = length base ->
  exists body,
    restoreMainBody w = Done (tt, mkWorld (setBody (session w) body) (history w))
    /\ elems body = base.
Proof.
  intros [tail Ht] Hs.
  assert (Hle : (storedBodyLength (session w) <= slen (mainBody (session w)))%nat)
    by (unfold slen; rewrite Ht, Hs, length_app; lia).
  unfold restoreMainBody, truncateBody, bind, getSession, putSession.
  rewrite (reslice_within _ Hle). eexists. split; [reflexivity|].
  simpl. rewrite Ht, Hs, firstn_app, Nat.sub_diag, firstn_O, app_nil_r.
  apply firstn_all.
Qed.

Lemma restoreMainBody_roundtrip_witness :
  exists body,
    restoreMainBody Demo.worldY
    = Done (tt, mkWorld (setBody (session Demo.worldY) body) (history Demo.worldY))
    /\ elems body = [].
Proof.
  apply (@restoreMainBody_roundtrip [] Demo.worldY).
  - eexists. reflexivity.
  - reflexivity.
Defined.

(** ** importFile *)

(** X3.  The loop of [importFile] over the declarations removes the
    first function named [main] and nothing else: the declarations
    before it and after it stay, in order, and a later [main] is among
    them.  When no function is named [main] the list is returned as it
    is and the quick fix is not run. *)
Theorem removeMain_first_only (ds : list Decl) :
  match removeMain ds with
  | (ds', true) =>
      exists before text after,
        ds = before ++ FuncDecl "main" text :: after
        /\ ds' = before ++ after
        /\ forallb (fun d => negb (isMain d)) before = true
  | (ds', false) => ds' = ds /\ forallb (fun d => negb (isMain d)) ds = true
  end.
Proof.
  induction ds as [|d ds IH]; simpl; [split; reflexivity|].
  destruct d as [n t|t].
  - destruct (String.eqb n "main") eqn:E.
    + apply String.eqb_eq in E. subst n.
      exists [], t, ds. repeat split.
    + destruct (removeMain ds) as [r b]. destruct b.
      * destruct IH as [before [text [after [H1 [H2 H3]]]]].
        exists (FuncDecl n t :: before), text, after.
        subst. repeat split. simpl. rewrite E. exact H3.
      * destruct IH as [-> H]. split; [reflexivity|]. simpl. rewrite E. exact H.
  - destruct (removeMain ds) as [r b]. destruct b.
    + destruct IH as [before [text [after [H1 [H2 H3]]]]].
      exists (GenDecl t :: before), text, after. subst. repeat split. exact H3.
    + destruct IH as [-> H]. split; [reflexivity | exact H].
Qed.

Lemma importFile_session (env : Env) (src : string) (w : World)
    (r : option error) (w' : World) :
  importFile env src w = Done (r, w') ->
  match r with
  | Some _ => session w' = session w
  | None =>
      exists tmpName f,
        session w' = addExtra (session w) (tmpName ++ ".go")%string f
  end.
Proof.
  unfold importFile, bind, call, getSession, putSession, ret. simpl.
  destruct (ioutil_TempFile env _ _ _) as [tmp|e]; simpl;
    [|intro H; injection H as <- <-; reflexivity].
  destruct (parser_ParseExt env _ _) as [f0|e]; simpl;
    [|intro H; injection H as <- <-; reflexivity].
  destruct (removeMain (Decls f0)) as [ds removed]. simpl.
  destruct (os_Create env _ _); simpl;
    [intro H; injection H as <- <-; reflexivity|].
  destruct (printer_FprintExt env _ _ _); simpl;
    intro H; injection H as <- <-; [reflexivity|].
  eexists. eexists. reflexivity.
Qed.


(** X4.  [importFile] registers all or nothing.  When it returns an
    error the session is what it was; when it returns nil, exactly one
    path, ending in [.go], and one file were added, each at the end of
    its list, and nothing else in the session changed. *)
Theorem importFile_all_or_nothing (env : Env) (src : string) (w : World)
    (r : option error) (w' : World) :
  importFile env src w = Done (r, w') ->
  match r with
  | Some _ => session w' = session w
  | None =>
      exists tmpName f,
        session w' = addExtra (session w) (tmpName ++ ".go")%string f
  end.
Proof. apply importFile_session. Qed.

Lemma importFile_all_or_nothing_witness :
  session (mkWorld Demo.session0
             [EvTempFile "/tmp/s" "gore_extarnal_";
              EvParseFile "/tmp/s/gore_extarnal_1.go" "func bad("])
  = session Demo.world0.
Proof.
  apply (@importFile_all_or_nothing (Demo.env (Demo.success "")) "func bad("
           Demo.world0 (Some (ScannerErrorList "syntax error"))).
  reflexivity.
Defined.

(** ** Run *)

(** X5.  [Run] never changes the session.  When the session file cannot
    be created, or cannot be printed, [Run] returns that error with an
    empty output and an empty stderr, and [go] is not started. *)
Theorem Run_stops_before_go (env : Env) (w : World) (r : string * string * option error)
    (w' : World) :
  Run env w = Done (r, w') ->
  session w' = session w
  /\ (forall err,
        os_Create env (history w) (FilePath (session w)) = Some err ->
        r = ("", "", Some err)
        /\ history w' = history w ++ [EvCreate (FilePath (session w))])
  /\ (forall err,
        os_Create env (history w) (FilePath (session w)) = None ->
        printer_Fprint env (history w ++ [EvCreate (FilePath (session w))])
          (FilePath (session w)) (Imports (session w))
          (elems (mainBody (session w))) = Some err ->
        r = ("", "", Some err)
        /\ forall args, ~ In (EvExec "go" args)
                            (skipn (length (history w)) (history w'))).
Proof.
  intro H. split.
  - exact (@wp_done _ _ (fun _ w1 => session w1 = session w) w r w'
             (Run_session env w) H).
  - unfold Run, goRun, bind, call, getSession, ret in H. simpl in H. split.
    + intros err Hc. rewrite Hc in H. injection H as <- <-. split; reflexivity.
    + intros err Hc Hp. rewrite Hc in H. simpl in H. rewrite Hp in H.
      injection H as <- <-. split; [reflexivity|]. simpl.
      rewrite <- app_assoc, skipn_length_app.
      intros args [E|[E|[]]]; discriminate.
Qed.

Lemma Run_stops_before_go_witness :
  ("", "", Some (OtherError "no space left on device"))
  = ("", "", Some (OtherError "no space left on device"))
  /\ history (mkWorld Demo.session0 [EvCreate Demo.sessionPath])
     = history Demo.world0 ++ [EvCreate (FilePath (session Demo.world0))].
Proof.
  refine (proj1 (proj2 (@Run_stops_before_go DemoMore.envFull Demo.world0
                          ("", "", Some (OtherError "no space left on device"))
                          (mkWorld Demo.session0 [EvCreate Demo.sessionPath]) _))
            (OtherError "no space left on device") _).
  - reflexivity.
  - reflexivity.
Defined.

(** ** Special lines *)



Lemma specialLoop_plain env (inLines acc : list string) (w : World) :
  forallb isPlainLine inLines = true ->
  specialLoop env inLines acc w = Done (Some (acc ++ inLines), w).
Proof.
  revert acc. induction inLines as [|line rest IH]; intros acc H; simpl.
  - rewrite app_nil_r. reflexivity.
  - simpl in H. apply andb_true_iff in H. destruct H as [Hl Hr].
    rewrite Hl, (IH _ Hr), <- app_assoc. reflexivity.
Qed.

Lemma bind_ext {A B} (m : M A) (k k' : A -> M B) w :
  (forall a w1, k a w1 = k' a w1) -> bind m k w = bind m k' w.
Proof.
  intro H. unfold bind. destruct (m w) as [[a w1]|]; [apply H | reflexivity].
Qed.

Lemma Eval_plain (env : Env) (input : string) (w : World) :
  forallb isPlainLine (Strings.Split input "010") = true ->
  Eval env input w
  = (clearQuickFix env ;;;
     storeMainBody ;;;
     if (String.length input =? 0)%nat
     then doQuickFix env ;;; ret ("", "", None)
     else evalInput env input) w.
Proof.
  intro H. unfold Eval.
  apply bind_ext. intros _ w1. apply bind_ext. intros _ w2.
  unfold bind at 1. rewrite (specialLoop_plain env _ [] w2 H).
  change ([] ++ Strings.Split input "010") with (Strings.Split input "010").
  unfold Strings.newline. rewrite Join_Split. reflexivity.
Qed.


(** X7.  A fragment without special lines goes through the first loop of
    [Eval] untouched: the command table is not consulted, and what is
    evaluated is the fragment itself.  The empty fragment only runs the
    quick fix and returns nil. *)
Theorem Eval_plain_fragment (env : Env) (input : string) (w : World) :
  forallb isPlainLine (Strings.Split input "010") = true ->
  Eval env input w
  = (clearQuickFix env ;;;
     storeMainBody ;;;
     if (String.length input =? 0)%nat
     then doQuickFix env ;;; ret ("", "", None)
     else evalInput env input) w.
Proof. apply Eval_plain. Qed.

Lemma Eval_plain_fragment_witness :
  Eval (Demo.env (Demo.success "")) ("x := 5" ++ Strings.newline ++ "y")%string Demo.world0
  = (clearQuickFix (Demo.env (Demo.success "")) ;;;
     storeMainBody ;;;
     if (String.length ("x := 5" ++ Strings.newline ++ "y")%string =? 0)%nat
     then doQuickFix (Demo.env (Demo.success "")) ;;; ret ("", "", None)
     else evalInput (Demo.env (Demo.success ""))
            ("x := 5" ++ Strings.newline ++ "y")%string) Demo.world0.
Proof.
  apply (@Eval_plain_fragment (Demo.env (Demo.success ""))
           ("x := 5" ++ Strings.newline ++ "y")%string Demo.world0).
  reflexivity.
Defined.

(** X8.  Only [ErrQuit] ends an evaluation from the command loop: when
    no action of the table answers [ErrQuit], whatever other errors the
    actions report, the loop over the lines never makes [Eval] quit. *)
Theorem specialLoop_quits_only_on_ErrQuit (env : Env) :
  (forall c arg w e w',
      In c (commands env) -> action c arg w = Done (Some e, w') ->
      isErrQuit e = false) ->
  forall inLines acc w r w',
    specialLoop env inLines acc w = Done (r, w') -> r <> None.
Proof.
  intro Hact.
  assert (Happly : forall c args w q w',
             In c (commands env) ->
             applyAction (action c) args w = Done (q, w') -> q = false).
  { intros c args. induction args as [|arg rest IH]; intros w q w' Hin H; simpl in H.
    - unfold ret in H. injection H as <- _. reflexivity.
    - destruct (_ || _); [|exact (IH _ _ _ Hin H)].
      apply bind_done in H. destruct H as [err [w1 [Ha Hk]]].
      destruct err as [e|]; [|exact (IH _ _ _ Hin Hk)].
      rewrite (Hact _ _ _ _ _ Hin Ha) in Hk. exact (IH _ _ _ Hin Hk). }
  assert (Hrun : forall cmds line following w q w',
             incl cmds (commands env) ->
             runCommands cmds line following w = Done (q, w') -> q = false).
  { intros cmds line following.
    induction cmds as [|c more IH]; intros w q w' Hincl H; simpl in H.
    - unfold ret in H. injection H as <- _. reflexivity.
    - assert (Hmore : incl more (commands env))
        by (intros x Hx; apply Hincl; right; exact Hx).
      destruct (String.eqb _ line); [exact (IH _ _ _ Hmore H)|].
      apply bind_done in H. destruct H as [args [w1 [_ Hk]]].
      apply bind_done in Hk. destruct Hk as [quit [w2 [Hq Hk]]].
      rewrite (Happly c args w1 quit w2 (Hincl c (or_introl eq_refl)) Hq) in Hk.
      exact (IH _ _ _ Hmore Hk). }
  intros inLines. induction inLines as [|line following IH]; intros acc w r w' H;
    simpl in H.
  - unfold ret in H. injection H as <- _. discriminate.
  - destruct (isPlainLine line); [exact (IH _ _ _ _ H)|].
    apply bind_done in H. destruct H as [quit [w1 [Hq Hk]]].
    rewrite (Hrun _ _ _ _ _ _ (incl_refl _) Hq) in Hk. exact (IH _ _ _ _ Hk).
Qed.

Lemma DemoMore_no_quit c arg w e w' :
  In c (commands DemoMore.envNoQuit) -> action c arg w = Done (Some e, w') ->
  isErrQuit e = false.
Proof.
  intros [<-|[]] H. simpl in H. unfold ret in H. injection H as <- _. reflexivity.
Qed.

Lemma specialLoop_quits_only_on_ErrQuit_witness :
  Some ["f()"] <> None.
Proof.
  apply (@specialLoop_quits_only_on_ErrQuit DemoMore.envNoQuit DemoMore_no_quit
           [":import nowhere"; "f()"] [] Demo.world0 (Some ["f()"]) Demo.world0).
  reflexivity.
Defined.

(** X9.  A command whose argument opens a parenthesis makes [Eval] read
    the following lines up to one that holds a closing parenthesis.
    When there is none, and in particular when the command stands on the
    last line, the index runs past the end of the lines and [Eval]
    panics. *)
Theorem unclosed_group_panics (skipped : list Command) (c : Command)
    (more : list Command) (line : string) (following : list string) (w : World) :
  forallb (fun c0 => String.eqb (commandArg line (name c0)) line) skipped = true ->
  String.eqb (commandArg line (name c)) line = false ->
  Strings.HasPrefix (Strings.TrimSpace (commandArg line (name c))) "(" = true ->
  forallb (fun l => negb (Strings.Contains l ")")) following = true ->
  runCommands (skipped ++ c :: more) line following w = Panic "index out of range".
Proof.
  intros Hs Hc Hp Hf.
  assert (Hg : forall acc, groupArgs following acc = None).
  { induction following as [|l rest IH]; intro acc; simpl; [reflexivity|].
    simpl in Hf. apply andb_true_iff in Hf. destruct Hf as [Hl Hr].
    apply negb_true_iff in Hl. rewrite Hl. apply IH. exact Hr. }
  induction skipped as [|c0 rest IH]; simpl.
  - rewrite Hc, Hp, Hg. reflexivity.
  - simpl in Hs. apply andb_true_iff in Hs. destruct Hs as [H0 Hr].
    rewrite H0. apply IH. exact Hr.
Qed.

Lemma unclosed_group_panics_witness :
  runCommands ([] ++ hd (mkCommand "" (fun _ => ret None)) Demo.table :: tl Demo.table)
              ":import (" [] Demo.world0
  = Panic "index out of range".
Proof.
  apply (@unclosed_group_panics [] (hd (mkCommand "" (fun _ => ret None)) Demo.table)
           (tl Demo.table) ":import (" [] Demo.world0);
    reflexivity.
Defined.

(** The same through [Eval]: a fragment that ends with [:import (]. *)
Example Eval_unclosed_import :
  Eval (Demo.env (Demo.success "")) ":import (" Demo.world0
  = Panic "index out of range".
Proof. reflexivity. Qed.

(** ** From the run to the return *)

Lemma interpretRun_result stderr runErr w r w' :
  interpretRun stderr runErr w = Done (r, w') ->
  r = if isExitStatus2 runErr then None else runErr.
Proof.
  unfold interpretRun. destruct (isExitStatus2 runErr) eqn:X.
  - destruct runErr as [e|]; [|discriminate]. cbv beta iota. simpl orb.
    cbv iota. intro H. apply bind_done in H. destruct H as [u [w1 [_ Hk]]].
    unfold ret in Hk. injection Hk as <- _. reflexivity.
  - destruct (_ || _); unfold ret; intro H; injection H as <- _; reflexivity.
Qed.

(** X10.  [Eval] never reports success for a run that failed otherwise
    than with exit status 2, nor for a run that wrote to stderr: the
    output and stderr returned are those of the run, and when the error
    returned is nil, stderr was empty and the run either succeeded or
    exited with status 2. *)
Theorem runAndFinish_nil_error (env : Env) (input : string) (prior : nat)
    (w : World) (out stderr : string) (runErr : option error) (w1 : World)
    (res : EvalResult) (w' : World) :
  Run env w = Done ((out, stderr, runErr), w1) ->
  runAndFinish env input prior w = Done (res, w') ->
  fst (fst res) = out /\ snd (fst res) = stderr
  /\ (snd res = None ->
      stderr = "" /\ (runErr = None \/ isExitStatus2 runErr = true)).
Proof.
  intros HRun H. unfold runAndFinish, bind at 1 in H. rewrite HRun in H.
  apply bind_done in H. destruct H as [runErr' [w2 [Hi Hc]]].
  apply interpretRun_result in Hi.
  destruct (cleanup_result _ _ _ _ _ _ _ Hc) as [H1 [H2 H3]].
  repeat split; trivial.
  - apply H3; assumption.
  - destruct (H3 H) as [_ E]. rewrite E in Hi.
    destruct (isExitStatus2 runErr); [right; reflexivity | left; congruence].
Qed.

Lemma runAndFinish_nil_error_witness :
  fst (fst ("5", "", @None error)) = "5" /\ snd (fst ("5", "", @None error)) = ""
  /\ (snd ("5", "", @None error) = None ->
      "" = "" /\ (@None error = None \/ isExitStatus2 None = true)).
Proof.
  apply (@runAndFinish_nil_error (Demo.env (Demo.success "5")) "x := 5" 0
           (mkWorld Demo.session1 []) "5" "" None
           (mkWorld Demo.session1
              [EvCreate Demo.sessionPath;
               EvFprint Demo.sessionPath ["fmt"]
                 [AssignStmt [Ident "x"] ":=" [BasicLit "5"]];
               EvExec "go" ["run"; Demo.sessionPath]])
           ("5", "", None)
           (mkWorld Demo.session1
              [EvCreate Demo.sessionPath;
               EvFprint Demo.sessionPath ["fmt"]
                 [AssignStmt [Ident "x"] ":=" [BasicLit "5"]];
               EvExec "go" ["run"; Demo.sessionPath];
               EvParseExpr "x := 5";
               EvParseFile "stmt.go" "package P; func F() { x := 5 }";
               EvCreate Demo.sessionPath;
               EvFprint Demo.sessionPath ["fmt"]
                 [AssignStmt [Ident "x"] ":=" [BasicLit "5"]]])).
  - reflexivity.
  - vm_compute. reflexivity.
Defined.

(** ** What classification and cleanup leave alone *)

(** Any property of the session that survives a change of the body and
    the registration of an external file survives the evaluation of
    expressions and statements. *)
Section SessionInvariant.

Variable env : Env.
Variable P : Session -> Prop.
Hypothesis P_setBody : forall s b, P s -> P (setBody s b).
Hypothesis P_addExtra : forall s path f, P s -> P (addExtra s path f).

Let I (w : World) : Prop := P (session w).

Lemma inv_appendStatements stmts w :
  I w -> wp (appendStatements env stmts) (fun _ w' => I w') w.
Proof.
  intro H. unfold appendStatements. repeat wp_step. apply P_setBody. exact H.
Qed.

Lemma inv_truncateBody n w :
  I w -> wp (truncateBody n) (fun _ w' => I w') w.
Proof.
  intro H. unfold truncateBody. wp_step. wp_step.
  destruct (reslice _ n); [|apply wp_panic]. wp_step. apply P_setBody. exact H.
Qed.

Lemma inv_evalExpr line w :
  I w -> wp (evalExpr env line) (fun _ w' => I w') w.
Proof.
  intro H. unfold evalExpr. wp_step. wp_step.
  destruct (parser_ParseExpr env line) as [e|err]; [|wp_step; exact H].
  apply wp_seq with (I := I); [apply inv_appendStatements; exact H|].
  intros ? w' H'. wp_step. exact H'.
Qed.

Lemma inv_importFile src w :
  I w -> wp (importFile env src) (fun _ w' => I w') w.
Proof.
  intro H. unfold importFile. wp_step. wp_step. wp_step. wp_step.
  destruct (ioutil_TempFile env _ _ _) as [tmp|err]; [|wp_step; exact H].
  wp_step. wp_step.
  destruct (parser_ParseExt env _ _) as [f0|err]; [|wp_step; exact H].
  destruct (removeMain (Decls f0)) as [ds removed].
  wp_step. wp_step.
  destruct (os_Create env _ _); [wp_step; exact H|].
  wp_step. wp_step.
  destruct (printer_FprintExt env _ _ _); [wp_step; exact H|].
  repeat wp_step. apply P_addExtra. exact H.
Qed.

Lemma inv_evalStmt input noPrint w :
  I w -> wp (evalStmt env input noPrint) (fun _ w' => I w') w.
Proof.
  intro H. unfold evalStmt. wp_step. wp_step.
  apply wp_seq with (I := I).
  - destruct (pf_err _); [|wp_step; exact H].
    unfold evalStmtFallback. wp_step. wp_step. wp_step. wp_step.
    destruct (os_Create env _ _); [wp_step; exact H|].
    wp_step. wp_step.
    destruct (file_Write env _ _ _); [wp_step; exact H|].
    wp_step. wp_step.
    destruct (snd (exec_Combined env _ _ _)); [wp_step; exact H|].
    wp_step. wp_step.
    destruct (ioutil_ReadFile env _ _) as [fp|err]; [|wp_step; exact H].
    apply wp_seq with (I := I); [apply inv_importFile; exact H|].
    intros ierr w' H'. destruct ierr as [[]|]; wp_step; exact H'.
  - intros [err|] w1 H1; [wp_step; exact H1|].
    destruct (pf_F _) as [stmts|]; [|apply wp_panic].
    apply wp_seq with (I := I); [apply inv_appendStatements; exact H1|].
    intros ? w2 H2. wp_step. exact H2.
Qed.

Lemma inv_sepLoop lines st w :
  I w -> wp (sepLoop env lines st) (fun _ w' => I w') w.
Proof.
  revert st w. induction lines as [|line rest IH]; intros st w H; simpl.
  - wp_step. exact H.
  - apply wp_seq with (I := I).
    + unfold sepLine. apply wp_seq with (I := I).
      * destruct (_ && _); [|wp_step; exact H].
        apply wp_seq with (I := I); [apply inv_evalExpr; exact H|].
        intros [e|err] w' H'; wp_step; exact H'.
      * intros [bc0|] w' H'; [|wp_step; exact H'].
        destruct (_ && _); [|wp_step; exact H'].
        apply wp_seq with (I := I); [apply inv_evalStmt; exact H'|].
        intros [e|] w'' H''; wp_step; exact H''.
    + intros [st'|err] w' H'; [apply IH; exact H' | wp_step; exact H'].
Qed.

Lemma inv_separateEvalStmt input w :
  I w -> wp (separateEvalStmt env input) (fun _ w' => I w') w.
Proof.
  intro H. unfold separateEvalStmt. apply wp_seq with (I := I).
  - apply inv_sepLoop. exact H.
  - intros [st|err] w' H'; [|wp_step; exact H'].
    unfold sepFlush. destruct (0 <? length (stmtLines st))%nat.
    + apply inv_evalStmt. exact H'.
    + wp_step. exact H'.
Qed.

Lemma inv_cleanLoop lines acc w :
  I w -> wp (cleanLoop env lines acc) (fun _ w' => I w') w.
Proof.
  revert acc w. induction lines as [|line rest IH]; intros acc w H; simpl.
  - wp_step. exact H.
  - wp_step. wp_step.
    apply wp_seq with (I := I); [apply inv_evalExpr; exact H|].
    intros [expr|err] w1 H1; [|apply IH; exact H1].
    apply wp_bind. unfold wp at 1. cbv beta.
    destruct (negb _); [|apply IH; exact H1].
    apply wp_seq with (I := I); [apply inv_truncateBody; exact H1|].
    intros ? w2 H2. apply IH. exact H2.
Qed.

Lemma inv_cleanEvalStmt input w :
  I w -> wp (cleanEvalStmt env input) (fun _ w' => I w') w.
Proof.
  intro H. unfold cleanEvalStmt. apply wp_seq with (I := I).
  - apply inv_cleanLoop. exact H.
  - intros ls w' H'. destruct (negb _).
    + apply inv_evalStmt. exact H'.
    + wp_step. exact H'.
Qed.

End SessionInvariant.

Lemma frame_setBody w s b :
  frame w s -> frame w (setBody s b).
Proof. exact (fun H => H). Qed.

Lemma frame_addExtra w s path f :
  frame w s -> frame w (addExtra s path f).
Proof.
  intros [H1 [H2 [H3 [mp [mf [H4 [H5 H6]]]]]]].
  repeat split; trivial.
  exists (mp ++ [path]), (mf ++ [f]). simpl.
  rewrite H4, H5, <- !app_assoc, !length_app, H6. repeat split.
Qed.

Lemma frame_refl w : frame w (session w).
Proof.
  repeat split. exists [], []. rewrite !app_nil_r. repeat split.
Qed.

(** X11.  Classification only adds to the session.  On every return
    of [separateEvalStmt], with or without an error, the statements the
    body had are still its first statements; the file path, the imports
    and the checkpoint are unchanged; and the auxiliary paths and files
    have grown at their ends by the same number of entries. *)
Theorem separateEvalStmt_only_adds (env : Env) (input : string) (w : World)
    (r : option error) (w' : World) :
  separateEvalStmt env input w = Done (r, w') ->
  startsWith (elems (mainBody (session w))) w' /\ frame w (session w').
Proof.
  intro H. split.
  - refine (@wp_done _ _ (fun _ w1 => startsWith (elems (mainBody (session w))) w1)
              w r w' _ H).
    apply separateEvalStmt_startsWith. exists []. rewrite app_nil_r. reflexivity.
  - refine (@wp_done _ _ (fun _ w1 => frame w (session w1)) w r w' _ H).
    apply (inv_separateEvalStmt env (frame w) (@frame_setBody w) (@frame_addExtra w)).
    apply frame_refl.
Qed.

Lemma separateEvalStmt_only_adds_witness :
  startsWith (elems (mainBody (session Demo.world1)))
    (mkWorld (setBody Demo.session1
                (mkSlice [AssignStmt [Ident "x"] ":=" [BasicLit "5"];
                          ExprStmt (CallExpr (Ident "__gophernotes") [Ident "y"])] []))
             [EvParseExpr "y"])
  /\ frame Demo.world1
       (setBody Demo.session1
          (mkSlice [AssignStmt [Ident "x"] ":=" [BasicLit "5"];
                    ExprStmt (CallExpr (Ident "__gophernotes") [Ident "y"])] [])).
Proof.
  apply (@separateEvalStmt_only_adds (Demo.env (Demo.success "")) "y" Demo.world1 None).
  reflexivity.
Defined.

(** X12.  The cleanup pass only adds to the session as well: on every
    return of [cleanEvalStmt] the statements the body had are still its
    first statements, although the pass cuts the body after each line
    that is an expression with effects; path, imports and checkpoint are
    unchanged and the auxiliary lists have grown together. *)
Theorem cleanEvalStmt_only_adds (env : Env) (input : string) (w : World)
    (r : option error) (w' : World) :
  cleanEvalStmt env input w = Done (r, w') ->
  startsWith (elems (mainBody (session w))) w' /\ frame w (session w').
Proof.
  intro H. split.
  - refine (@wp_done _ _ (fun _ w1 => startsWith (elems (mainBody (session w))) w1)
              w r w' _ H).
    apply cleanEvalStmt_startsWith. exists []. rewrite app_nil_r. reflexivity.
  - refine (@wp_done _ _ (fun _ w1 => frame w (session w1)) w r w' _ H).
    apply (inv_cleanEvalStmt env (frame w) (@frame_setBody w) (@frame_addExtra w)).
    apply frame_refl.
Qed.

Lemma cleanEvalStmt_only_adds_witness :
  startsWith (elems (mainBody (session Demo.world1)))
    (mkWorld (setBody Demo.session1
                (mkSlice [AssignStmt [Ident "x"] ":=" [BasicLit "5"];
                          ExprStmt (CallExpr (Ident "f") [])] []))
             [EvParseExpr "f()"; EvParseFile "stmt.go" "package P; func F() { f() }"])
  /\ frame Demo.world1
       (setBody Demo.session1
          (mkSlice [AssignStmt [Ident "x"] ":=" [BasicLit "5"];
                    ExprStmt (CallExpr (Ident "f") [])] [])).
Proof.
  apply (@cleanEvalStmt_only_adds (Demo.env (Demo.success "")) "f()" Demo.world1 None).
  vm_compute. reflexivity.
Defined.

(** ** The cleanup pass on statements *)

Lemma cleanLoop_rejected env (lines acc : list string) (w : World) :
  forallb (notExpr env) lines = true ->
  cleanLoop env lines acc w
  = Done (acc ++ lines, mkWorld (session w) (history w ++ map EvParseExpr lines)).
Proof.
  revert acc w. induction lines as [|line rest IH]; intros acc w H; simpl.
  - rewrite !app_nil_r. destruct w. reflexivity.
  - simpl in H. apply andb_true_iff in H. destruct H as [Hl Hr].
    unfold notExpr in Hl.
    unfold bind at 1, getSession. unfold bind at 1, evalExpr, bind at 1, call.
    destruct (parser_ParseExpr env line) as [e|err]; [discriminate|].
    unfold ret at 1. rewrite (IH _ _ Hr). cbn [session history].
    rewrite <- !app_assoc. reflexivity.
Qed.

(** X13.  When no line of the fragment parses as an expression, the
    cleanup pass does not follow the blocks that classification found:
    it asks the parser about each line, leaves the body alone, and then
    evaluates the whole fragment as one silent statement block. *)
Theorem cleanEvalStmt_statements_only (env : Env) (input : string) (w : World) :
  forallb (notExpr env) (Strings.Split input "010") = true ->
  cleanEvalStmt env input w
  = evalStmt env input true
      (mkWorld (session w)
         (history w ++ map EvParseExpr (Strings.Split input "010"))).
Proof.
  intro H. unfold cleanEvalStmt, bind at 1.
  rewrite (cleanLoop_rejected env _ [] w H).
  change ([] ++ Strings.Split input "010") with (Strings.Split input "010").
  pose proof (Split_not_nil input "010") as Hne.
  destruct (Strings.Split input "010") as [|l ls] eqn:E; [congruence|].
  cbn [length Nat.eqb negb]. rewrite <- E.
  unfold Strings.newline. rewrite Join_Split. reflexivity.
Qed.

Lemma cleanEvalStmt_statements_only_witness :
  cleanEvalStmt (Demo.env (Demo.success "")) "x := 5" Demo.world0
  = evalStmt (Demo.env (Demo.success "")) "x := 5" true
      (mkWorld Demo.session0 ([] ++ map EvParseExpr (Strings.Split "x := 5" "010"))).
Proof.
  apply (@cleanEvalStmt_statements_only (Demo.env (Demo.success "")) "x := 5" Demo.world0).
  reflexivity.
Defined.

(** ** A classification error through Eval *)

(** X16.  For a fragment without special lines that is not empty: when
    classification fails, [Eval] returns the error as it is, with its
    message as diagnostics and an empty output; the quick fix, [go] and
    the rewrite of the session file do not run, and the world is the one
    [separateEvalStmt] left. *)
Theorem Eval_returns_classification_error (env : Env) (input : string)
    (w wc : World) (e : error) (w' : World) :
  forallb isPlainLine (Strings.Split input "010") = true ->
  input <> "" ->
  clearQuickFix env w = Done (tt, wc) ->
  separateEvalStmt env input
    (mkWorld (setStored (session wc) (slen (mainBody (session wc)))) (history wc))
  = Done (Some e, w') ->
  Eval env input w = Done (("", error_Error e, Some e), w').
Proof.
  intros Hplain Hne Hclear Hsep.
  rewrite (Eval_plain env input w Hplain).
  unfold bind at 1. rewrite Hclear.
  unfold bind at 1, storeMainBody, bind at 1, getSession, putSession.
  destruct input as [|c s]; [congruence|]. cbn [String.length Nat.eqb].
  apply evalInput_classification_error. exact Hsep.
Qed.

Lemma Eval_returns_classification_error_witness :
  Eval (Demo.env (Demo.success "")) "func bad(" Demo.world0
  = Done (("", error_Error (ErrorString "func_proxy.go:4:1: expected declaration"),
           Some (ErrorString "func_proxy.go:4:1: expected declaration")),
          mkWorld Demo.session0
            [EvParseExpr "func bad(";
             EvParseFile "stmt.go" "package P; func F() { func bad( }";
             EvCreate "/tmp/s/func_proxy.go";
             EvWrite "/tmp/s/func_proxy.go" (appendForImport ++ "func bad(")%string;
             EvExec "goimports" ["-w"; "/tmp/s/func_proxy.go"]]).
Proof.
  apply (@Eval_returns_classification_error (Demo.env (Demo.success "")) "func bad("
           Demo.world0 Demo.world0).
  - reflexivity.
  - discriminate.
  - reflexivity.
  - vm_compute. reflexivity.
Defined.

(** ** reset *)

(** X17.  [reset] replaces the program or leaves the session alone.
    When it returns an error (the rendering failed or the rendered text
    did not parse) the session is what it was.  When it returns nil, the
    imports and the body are those the parser read from the text
    rendered with tabs; the file path, the auxiliary files and the
    checkpoint are kept, the checkpoint even when the new body is
    shorter. *)
Theorem reset_replaces_or_keeps (ext : Ext) (w : World) (r : option error) (w' : World) :
  reset ext w = Done (r, w') ->
  match r with
  | Some _ => session w' = session w
  | None =>
      exists text file body,
        printer_Config_Fprint ext false (Imports (session w))
          (elems (mainBody (session w))) = (text, None)
        /\ parser_ParseSession ext "gophernotes_session.go" text = inl file
        /\ sf_main file = Some body
        /\ session w' = replaceFile (session w) (sf_imports file) body
  end.
Proof.
  unfold reset, source, bind, call, getSession, putSession, ret. simpl.
  destruct (printer_Config_Fprint ext false _ _) as [text perr] eqn:Ep. simpl.
  destruct perr; [intro H; injection H as <- <-; reflexivity|].
  destruct (parser_ParseSession ext _ text) as [file|err] eqn:Es; simpl;
    [|intro H; injection H as <- <-; reflexivity].
  destruct (sf_main file) as [body|] eqn:Em; [|discriminate].
  intro H. injection H as <- <-. exists text, file, body. repeat split; assumption.
Qed.

Lemma reset_replaces_or_keeps_witness :
  session (mkWorld Demo.session1 []) = session Demo.world1.
Proof.
  apply (@reset_replaces_or_keeps DemoMore.ext Demo.world1
           (Some (OtherError "unsupported node"))).
  reflexivity.
Defined.

(** ** Inclusion of external files and packages *)

(** X18.  A file that cannot be read, or whose imports cannot be parsed,
    is skipped without a trace in the session: [includeFile] returns,
    [actionImport] and [importFile] have not been called, and only the
    read (and the parse) are in the history. *)
Theorem includeFile_skips_unusable (env : Env) (ext : Ext) (file : string) (w : World) :
  (forall err,
      ioutil_ReadFile env (history w) file = inr err ->
      includeFile env ext file w
      = Done (tt, mkWorld (session w) (history w ++ [EvReadFile file])))
  /\ (forall content err,
        ioutil_ReadFile env (history w) file = inl content ->
        parser_ParseImports ext content = inr err ->
        includeFile env ext file w
        = Done (tt, mkWorld (session w)
                      (history w ++ [EvReadFile file; EvParseFile "" content]))).
Proof.
  split.
  - intros err H. unfold includeFile, bind, call. rewrite H. reflexivity.
  - intros content err H Hp.
    unfold includeFile, importPackages, bind, call. rewrite H. simpl.
    rewrite Hp. simpl. rewrite <- app_assoc. reflexivity.
Qed.

Lemma includeFile_skips_unusable_witness :
  includeFile DemoMore.env DemoMore.ext "lib/gone.go" Demo.world0
  = Done (tt, mkWorld Demo.session0 ([] ++ [EvReadFile "lib/gone.go"])).
Proof.
  apply (proj1 (@includeFile_skips_unusable DemoMore.env DemoMore.ext "lib/gone.go"
                  Demo.world0) (OtherError "open: no such file or directory")).
  reflexivity.
Defined.

Lemma grows_refl w : grows w 0 w.
Proof. exists []. rewrite app_nil_r. split; [reflexivity | apply le_n]. Qed.

Lemma grows_step w0 k w w' :
  grows w0 k w ->
  (ExtraFilePaths (session w') = ExtraFilePaths (session w)
   \/ exists p, ExtraFilePaths (session w') = ExtraFilePaths (session w) ++ [p]) ->
  grows w0 (S k) w'.
Proof.
  intros [more [H Hl]] [E|[p E]]; unfold grows; rewrite E, H.
  - exists more. split; [reflexivity | lia].
  - exists (more ++ [p]). rewrite <- app_assoc, length_app. simpl.
    split; [reflexivity | lia].
Qed.

Lemma readAll_step h0 fs w file w' :
  readAll h0 fs w ->
  extends (history w ++ [EvReadFile file]) w' ->
  readAll h0 (fs ++ [file]) w'.
Proof.
  intros [more [H Hin]] [more2 H2].
  exists (more ++ EvReadFile file :: more2). split.
  - rewrite H2, H, <- !app_assoc. reflexivity.
  - intros f Hf. apply in_app_or in Hf. apply in_or_app.
    destruct Hf as [Hf|[<-|[]]]; [left; apply Hin; exact Hf | right; left; reflexivity].
Qed.

(** X19.  [includeFiles] goes through every file, whatever happened to
    the files before: each file of the list is read.  It registers at
    most one auxiliary path per file, each at the end of the list.  Both
    hold provided [actionImport], which is outside repl.go, leaves the
    auxiliary paths alone and only adds to the history of calls. *)
Theorem includeFiles_one_path_each (env : Env) (ext : Ext) :
  (forall p w, wp (actionImport ext p)
                  (fun _ w' => ExtraFilePaths (session w')
                               = ExtraFilePaths (session w)) w) ->
  (forall p h w, extends h w -> wp (actionImport ext p) (fun _ w' => extends h w') w) ->
  forall files w r w',
    includeFiles env ext files w = Done (r, w') ->
    (forall f, In f files ->
               In (EvReadFile f) (skipn (length (history w)) (history w')))
    /\ exists more,
         ExtraFilePaths (session w') = ExtraFilePaths (session w) ++ more
         /\ (length more <= length files)%nat.
Proof.
  intros Hact Hhist.
  assert (Heach : forall paths w,
             wp (importEach ext paths)
                (fun _ w' => ExtraFilePaths (session w')
                             = ExtraFilePaths (session w)) w).
  { induction paths as [|p rest IH]; intro w; simpl.
    - wp_step. reflexivity.
    - wp_step. eapply wp_mono; [|apply Hact].
      intros ? w1 H1. cbv beta. eapply wp_mono; [|apply IH].
      intros ? w2 H2. cbv beta in H2. congruence. }
  assert (Hfile : forall file w,
             wp (includeFile env ext file)
                (fun _ w' =>
                   ExtraFilePaths (session w') = ExtraFilePaths (session w)
                   \/ exists p, ExtraFilePaths (session w')
                                = ExtraFilePaths (session w) ++ [p]) w).
  { intros file w. unfold includeFile. wp_step. wp_step.
    destruct (ioutil_ReadFile env _ _) as [content|err]; [|wp_step; left; reflexivity].
    wp_step. unfold importPackages. wp_step. wp_step.
    destruct (parser_ParseImports ext content) as [imports|err];
      [|wp_step; wp_step; left; reflexivity].
    wp_step. eapply wp_mono; [|apply Heach].
    intros ? w1 H1. cbv beta. wp_step. wp_step.
    unfold wp. destruct (importFile env content w1) as [[ir w2]|] eqn:E; [|exact I].
    unfold ret. pose proof (importFile_session _ _ _ E) as Hs.
    destruct ir.
    - left. rewrite Hs. exact H1.
    - destruct Hs as [t [f Hs]]. right. exists (t ++ ".go")%string.
      rewrite Hs. simpl. rewrite H1. reflexivity. }
  assert (Heach_h : forall paths h w, extends h w ->
             wp (importEach ext paths) (fun _ w' => extends h w') w).
  { induction paths as [|p rest IH]; intros h w H; simpl.
    - wp_step. exact H.
    - apply wp_seq with (I := extends h); [apply Hhist; exact H|].
      intros ? w1 H1. apply IH. exact H1. }
  assert (Hread : forall file w,
             wp (includeFile env ext file)
                (fun _ w' => extends (history w ++ [EvReadFile file]) w') w).
  { intros file w. unfold includeFile. wp_step. wp_step.
    set (h := history w ++ [EvReadFile file]).
    assert (H0 : extends h (mkWorld (session w) h)) by apply (extends_refl (mkWorld (session w) h)).
    destruct (ioutil_ReadFile env _ _) as [content|err]; [|wp_step; exact H0].
    apply wp_seq with (I := extends h).
    - unfold importPackages. wp_step. wp_step.
      apply (extends_call (EvParseFile "" content)) in H0.
      destruct (parser_ParseImports ext content) as [imports|err]; [|wp_step; exact H0].
      apply wp_seq with (I := extends h); [apply Heach_h; exact H0|].
      intros ? w1 H1. wp_step. exact H1.
    - intros [e|] w1 H1; [wp_step; exact H1|].
      apply wp_seq with (I := extends h); [apply importFile_extends; exact H1|].
      intros ? w2 H2. wp_step. exact H2. }
  intros files w r w' H. split.
  - assert (G : forall fs w1, readAll (history w) fs w1 ->
                  wp (includeFiles env ext files)
                     (fun _ w2 => readAll (history w) (fs ++ files) w2) w1).
    { clear H. induction files as [|file rest IH]; intros fs w1 Hr; simpl.
      - wp_step. rewrite app_nil_r. exact Hr.
      - wp_step. eapply wp_mono; [|apply Hread].
        intros ? w2 H2. cbv beta.
        eapply wp_mono; [|apply (IH (fs ++ [file]) w2); eapply readAll_step; [exact Hr | exact H2]].
        intros ? w3 H3. cbv beta in H3. rewrite <- app_assoc in H3. exact H3. }
    assert (R0 : readAll (history w) [] w).
    { exists []. rewrite app_nil_r. split; [reflexivity | intros f []]. }
    destruct (@wp_done _ _ (fun _ w2 => readAll (history w) ([] ++ files) w2)
                w r w' (G [] w R0) H) as [more [Hm Hin]].
    intros f Hf. rewrite Hm, skipn_length_app. apply Hin. exact Hf.
  - refine (@wp_done _ _ (fun _ w1 => grows w (length files) w1) w r w' _ H).
    clear H r w'.
    assert (G : forall k w1, grows w k w1 ->
                  wp (includeFiles env ext files)
                     (fun _ w2 => grows w (k + length files) w2) w1).
    { induction files as [|file rest IH]; intros k w1 Hg; simpl.
      - wp_step. rewrite Nat.add_0_r. exact Hg.
      - wp_step. eapply wp_mono; [|apply Hfile].
        intros ? w2 H2. cbv beta. eapply wp_mono; [|apply (IH (S k))].
        + intros ? w3 H3. cbv beta in H3.
          replace (k + S (length rest))%nat with (S k + length rest)%nat by lia.
          exact H3.
        + eapply grows_step; [exact Hg | exact H2]. }
    apply (G 0%nat w (grows_refl w)).
Qed.

Lemma DemoMore_actionImport_keeps p w :
  wp (actionImport DemoMore.ext p)
     (fun _ w' => ExtraFilePaths (session w') = ExtraFilePaths (session w)) w.
Proof. reflexivity. Qed.

Lemma DemoMore_actionImport_extends p h w :
  extends h w -> wp (actionImport DemoMore.ext p) (fun _ w' => extends h w') w.
Proof. exact (fun H => H). Qed.

Lemma includeFiles_one_path_each_witness :
  (forall f, In f ["lib/helper.go"; "lib/gone.go"] ->
             In (EvReadFile f)
                [EvReadFile "lib/helper.go"; EvParseFile "" DemoMore.helperSrc;
                 EvTempFile "/tmp/s" "gore_extarnal_";
                 EvParseFile "/tmp/s/gore_extarnal_1.go" DemoMore.helperSrc;
                 EvCreate "/tmp/s/gore_extarnal_1.go";
                 EvFprintExt "/tmp/s/gore_extarnal_1.go"
                   (mkExtFile "main"
                      [FuncDecl "Helper" "func Helper() int { return 42 }"]);
                 EvReadFile "lib/gone.go"])
  /\ exists more,
       ["/tmp/s/gore_extarnal_1.go"] = [] ++ more
       /\ (length more <= length ["lib/helper.go"; "lib/gone.go"])%nat.
Proof.
  apply (@includeFiles_one_path_each DemoMore.env DemoMore.ext
           DemoMore_actionImport_keeps DemoMore_actionImport_extends
           ["lib/helper.go"; "lib/gone.go"] Demo.world0 tt
           (mkWorld
              (mkSession Demo.sessionPath ["fmt"] ["/tmp/s/gore_extarnal_1.go"]
                 [mkExtFile "main" [FuncDecl "Helper" "func Helper() int { return 42 }"]]
                 (mkSlice [] []) 0)
              [EvReadFile "lib/helper.go"; EvParseFile "" DemoMore.helperSrc;
               EvTempFile "/tmp/s" "gore_extarnal_";
               EvParseFile "/tmp/s/gore_extarnal_1.go" DemoMore.helperSrc;
               EvCreate "/tmp/s/gore_extarnal_1.go";
               EvFprintExt "/tmp/s/gore_extarnal_1.go"
                 (mkExtFile "main" [FuncDecl "Helper" "func Helper() int { return 42 }"]);
               EvReadFile "lib/gone.go"])).
  vm_compute. reflexivity.
Defined.

(** X20.  [includePackage] reports an error only when the package is
    found neither by its import path nor as a directory, and the error
    is then the one of the lookup by path; the session and the history
    are untouched.  Once a package is found it returns nil, whatever
    happened to the files of the package. *)
Theorem includePackage_error (env : Env) (ext : Ext) (path : string) (w : World)
    (r : option error) (w' : World) :
  includePackage env ext path w = Done (r, w') ->
  match build_Import ext (history w) path with
  | inl _ => r = None
  | inr err =>
      match build_ImportDir ext (history w) path with
      | inl _ => r = None
      | inr _ => r = Some err /\ w' = w
      end
  end.
Proof.
  unfold includePackage. intro H.
  apply bind_done in H. destruct H as [r1 [w1 [H1 H]]].
  injection H1 as <- <-.
  apply bind_done in H. destruct H as [pkg [w2 [H2 H]]].
  destruct (build_Import ext (history w) path) as [p|err].
  - unfold ret in H2. injection H2 as <- <-.
    apply bind_done in H. destruct H as [u [w3 [_ H]]].
    unfold ret in H. injection H as <- _. reflexivity.
  - apply bind_done in H2. destruct H2 as [r2 [w3 [H3 H2]]].
    injection H3 as <- <-.
    destruct (build_ImportDir ext (history w) path) as [p|err2];
      unfold ret in H2; injection H2 as <- <-.
    + apply bind_done in H. destruct H as [u [w3 [_ H]]].
      unfold ret in H. injection H as <- _. reflexivity.
    + unfold ret in H. injection H as <- <-. split; reflexivity.
Qed.

Lemma includePackage_error_witness :
  Some (OtherError "cannot find package") = Some (OtherError "cannot find package")
  /\ Demo.world0 = Demo.world0.
Proof.
  apply (@includePackage_error DemoMore.env DemoMore.ext "./missing" Demo.world0
           (Some (OtherError "cannot find package")) Demo.world0).
  reflexivity.
Defined.

(** ** NewSession *)

Lemma initialSource_not_empty path code :
  String.eqb (initialSource path code) "" = false.
Proof. reflexivity. Qed.

Lemma pickSource_find boot (pkgs : list (string * string)) :
  pickSource boot pkgs
  = match find (fun pc => importable boot (fst pc)) pkgs with
    | Some (path, code) => initialSource path code
    | None => ""
    end.
Proof.
  induction pkgs as [|[path code] rest IH]; simpl; [reflexivity|].
  unfold importable at 1. simpl.
  destruct (importer_Import boot path); [exact IH | reflexivity].
Qed.

(** X21.  A session that [NewSession] returns was built from the first
    package of [printerPkgs], in the order pp, spew, fmt, that the
    importer accepts: the template was filled with its path and its
    printing code, and the session holds the imports and the body of
    [main] the parser read from that text, the path of the session file
    inside the fresh directory, no auxiliary file and checkpoint zero. *)
Theorem NewSession_first_printer (boot : Boot) (s : Session) :
  NewSession boot = Done (inl s) ->
  exists dir path code file body,
    ioutil_TempDir boot = inl dir
    /\ find (fun pc => importable boot (fst pc)) printerPkgs = Some (path, code)
    /\ boot_ParseFile boot "gophernotes_session.go" (initialSource path code) = inl file
    /\ sf_main file = Some body
    /\ s = mkSession (boot_Join boot dir "gophernotes_session.go")
                     (sf_imports file) [] [] body 0.
Proof.
  unfold NewSession, tempFile. rewrite pickSource_find.
  destruct (ioutil_TempDir boot) as [dir|e]; [|discriminate].
  destruct (os_MkdirAll boot dir); [discriminate|].
  destruct (find _ printerPkgs) as [[path code]|] eqn:F; cbv zeta.
  - rewrite initialSource_not_empty.
    destruct (boot_ParseFile boot _ _) as [file|e] eqn:P; [|discriminate].
    destruct (sf_main file) as [body|] eqn:B; [|discriminate].
    intro H. injection H as <-. exists dir, path, code, file, body.
    repeat split; assumption.
  - discriminate.
Qed.

Lemma NewSession_first_printer_witness :
  exists dir path code file body,
    ioutil_TempDir DemoMore.boot = inl dir
    /\ find (fun pc => importable DemoMore.boot (fst pc)) printerPkgs = Some (path, code)
    /\ boot_ParseFile DemoMore.boot "gophernotes_session.go" (initialSource path code)
       = inl file
    /\ sf_main file = Some body
    /\ mkSession "/tmp/s/gophernotes_session.go" ["fmt"] [] [] (mkSlice [] []) 0
       = mkSession (boot_Join DemoMore.boot dir "gophernotes_session.go")
                   (sf_imports file) [] [] body 0.
Proof.
  apply (@NewSession_first_printer DemoMore.boot
           (mkSession "/tmp/s/gophernotes_session.go" ["fmt"] [] [] (mkSlice [] []) 0)).
  reflexivity.
Defined.

Lemma find_all_false {A} (f : A -> bool) (l : list A) :
  forallb (fun x => negb (f x)) l = true -> find f l = None.
Proof.
  induction l as [|x l IH]; simpl; [reflexivity|].
  intro H. apply andb_true_iff in H. destruct H as [Hx Hl].
  apply negb_true_iff in Hx. rewrite Hx. apply IH. exact Hl.
Qed.

(** X22.  When the temporary file is available but none of the three
    packages can be imported, [NewSession] fails with the error "Could
    not load pretty printing package", whatever the parser would say. *)
Theorem NewSession_no_printer (boot : Boot) (filePath : string) :
  tempFile boot = inl filePath ->
  forallb (fun pc => negb (importable boot (fst pc))) printerPkgs = true ->
  NewSession boot
  = Done (inr (ErrorString "Could not load pretty printing package")).
Proof.
  intros Ht Hf. unfold NewSession.
  rewrite Ht, pickSource_find, (find_all_false _ _ Hf). reflexivity.
Qed.

Lemma NewSession_no_printer_witness :
  NewSession DemoMore.bare
  = Done (inr (ErrorString "Could not load pretty printing package")).
Proof.
  apply (@NewSession_no_printer DemoMore.bare "/tmp/s/gophernotes_session.go");
    reflexivity.
Defined.

(** ** The checkpoint prefix and the mutations of Eval *)




(** ** White space beyond ASCII *)

(** A no-break space (U+00A0) in front and a line separator (U+2028)
    behind are trimmed; a lone continuation byte is not. *)
Example TrimSpace_unicode :
  Strings.TrimSpace (String "194" (String "160" ("a b" ++ String "226" (String "128" (String "168" "")))))
  = "a b"
  /\ Strings.TrimSpace (String "160" "a") = String "160" "a"
  /\ Strings.TrimSpace (String "009" (String "227" (String "128" (String "128" "")))) = "".
Proof. repeat split; reflexivity. Qed.

(** A line that starts with a no-break space and a double quote is a
    special line for the test of line 330. *)
Example nbsp_quote_is_special :
  isPlainLine (String "194" (String "160" (Strings.dquote ++ "fmt" ++ Strings.dquote)))
  = false.
Proof. reflexivity. Qed.
